(** * MemeGenius AI: the state model of [App.tsx]

    A shallow embedding of the client-side state of the meme studio
    (src/App.tsx, src/types.ts): the nine [useState] cells of [App], the
    text-overlay operations and the asynchronous handlers that load,
    caption, edit and analyse the image.

    Conventions of the embedding.
    - A JavaScript string is a [string]; every character stands for one
      UTF-16 code unit in the range 0..255.
    - A JavaScript number that the code only stores or compares (overlay
      coordinates, font size, the clock) is a [Z]; the code does no
      arithmetic on them.
    - [string | null] is [option string]; [!v] follows JavaScript
      truthiness: [null] and the empty string are falsy.
    - A handler runs against the state of the render it was created in,
      and each state cell is written through its setter.  An [await]
      splits a handler in two: what runs before the promise is created,
      and what runs when it settles.  The second half only writes
      constants and the settled value, so it is a function of the state
      at the time it runs.
    - Whatever the handlers obtain from outside ([Date.now], [fetch], the
      Gemini service functions, [FileReader]) is an explicit argument. *)

From stdpp Require Import base decidable option list strings pretty.
From Stdlib Require Import ZArith Lia Ascii.

Local Open Scope Z_scope.
Local Open Scope string_scope.
Local Open Scope list_scope.

(** ** types.ts *)

Module TextOverlay.
Record t : Type := mk {
id : string;
text : string;
x : Z;          (* Percentage 0-100 *)
y : Z;          (* Percentage 0-100 *)
fontSize : Z;
color : string;
isUppercase : bool
}.

(** [{ ...t, x, y }] *)
Definition with_xy (o : t) (x' y' : Z) : t :=
mk (id o) (text o) x' y' (fontSize o) (color o) (isUppercase o).
End TextOverlay.

Inductive LoadingState : Type :=
  | IDLE
  | GENERATING_CAPTIONS
  | EDITING_IMAGE
  | ANALYZING.

Inductive Category : Type := Funny | Sarcastic | Wholesome | Dark | Viral.

Module GeneratedCaption.
Record t : Type := mk { text : string; category : Category }.
End GeneratedCaption.

Global Instance TextOverlay_eq_dec : EqDecision TextOverlay.t.
Proof. solve_decision. Defined.

Global Instance LoadingState_eq_dec : EqDecision LoadingState.
Proof. solve_decision. Defined.

(** ** JavaScript primitives used by the handlers *)

(** A settled promise. *)
Inductive Outcome (A : Type) : Type :=
  | Resolved (a : A)
  | Rejected (err : string).
Arguments Resolved {A} a.
Arguments Rejected {A} err.

(** Truthiness of a [string] and of a [string | null]. *)
Definition truthy (s : string) : bool :=
  match s with "" => false | _ => true end.

Definition truthy_opt (o : option string) : bool :=
  match o with None => false | Some s => truthy s end.

(** White space of [String.prototype.trim] among the code units below 256:
    TAB, LF, VT, FF, CR, SP and NBSP. *)
Definition isWhiteSpace (a : ascii) : bool :=
  let n := N_of_ascii a in
  ((9 <=? n) && (n <=? 13) || (n =? 32) || (n =? 160))%N.

Fixpoint trimStart (s : string) : string :=
  match s with
  | "" => ""
  | String a s' => if isWhiteSpace a then trimStart s' else s
  end.

Fixpoint trimEnd (s : string) : string :=
  match s with
  | "" => ""
  | String a s' =>
      match trimEnd s' with
      | "" => if isWhiteSpace a then "" else String a ""
      | r => String a r
      end
  end.

Definition trim (s : string) : string := trimEnd (trimStart s).

(** [s.split(sep)] for a one-character separator. *)
Fixpoint split (sep : ascii) (s : string) : list string :=
  match s with
  | "" => [""]
  | String a s' =>
      if decide (a = sep) then "" :: split sep s'
      else match split sep s' with
           | h :: r => String a h :: r
           | [] => [String a ""]
           end
  end.

(** [currentImage.split(',')[1]]: [None] is [undefined]. *)
Definition base64Data (image : string) : option string :=
  split "," image !! 1%nat.

(** [n.toString()] of an integral number. *)
Definition toString (n : Z) : string := pretty n.

(** ** The text overlays (App.tsx, lines 132-151) *)

Definition addTextOverlay (now : Z) (text : string)
    (texts : list TextOverlay.t) : list TextOverlay.t :=
  let newText :=
    TextOverlay.mk (toString now) text 50
      (if decide (List.length texts = 0%nat) then 10 else 90)
      32 "#FFFFFF" true in
  texts ++ [newText].

(** A run of [addTextOverlay] calls, each with the clock value it read. *)
Definition addAll (calls : list (Z * string))
    (texts : list TextOverlay.t) : list TextOverlay.t :=
  foldl (λ acc c, addTextOverlay c.1 c.2 acc) texts calls.

Definition updateTextPosition (id : string) (x y : Z)
    (texts : list TextOverlay.t) : list TextOverlay.t :=
  (λ t, if decide (TextOverlay.id t = id)
        then TextOverlay.with_xy t x y else t) <$> texts.

Definition removeText (id : string)
    (texts : list TextOverlay.t) : list TextOverlay.t :=
  filter (λ t, TextOverlay.id t ≠ id) texts.

(** ** The state cells of [App] (App.tsx, lines 28-36) *)

Record State : Type := mkState {
  currentImage : option string;
  currentMimeType : string;
  texts : list TextOverlay.t;
  captions : list GeneratedCaption.t;
  loadingState : LoadingState;
  analysisText : string;
  showAnalysis : bool;
  editPrompt : string;
  errorMsg : option string
}.

Definition initialState : State :=
  mkState None "image/jpeg" [] [] IDLE "" false "" None.

Section Setters.
Variable s : State.

Definition setCurrentImage (v : option string) : State :=
  mkState v (currentMimeType s) (texts s) (captions s) (loadingState s)
    (analysisText s) (showAnalysis s) (editPrompt s) (errorMsg s).
Definition setCurrentMimeType (v : string) : State :=
  mkState (currentImage s) v (texts s) (captions s) (loadingState s)
    (analysisText s) (showAnalysis s) (editPrompt s) (errorMsg s).
Definition setTexts (v : list TextOverlay.t) : State :=
  mkState (currentImage s) (currentMimeType s) v (captions s)
    (loadingState s) (analysisText s) (showAnalysis s) (editPrompt s)
    (errorMsg s).
Definition setCaptions (v : list GeneratedCaption.t) : State :=
  mkState (currentImage s) (currentMimeType s) (texts s) v
    (loadingState s) (analysisText s) (showAnalysis s) (editPrompt s)
    (errorMsg s).
Definition setLoadingState (v : LoadingState) : State :=
  mkState (currentImage s) (currentMimeType s) (texts s) (captions s) v
    (analysisText s) (showAnalysis s) (editPrompt s) (errorMsg s).
Definition setAnalysisText (v : string) : State :=
  mkState (currentImage s) (currentMimeType s) (texts s) (captions s)
    (loadingState s) v (showAnalysis s) (editPrompt s) (errorMsg s).
Definition setShowAnalysis (v : bool) : State :=
  mkState (currentImage s) (currentMimeType s) (texts s) (captions s)
    (loadingState s) (analysisText s) v (editPrompt s) (errorMsg s).
Definition setEditPrompt (v : string) : State :=
  mkState (currentImage s) (currentMimeType s) (texts s) (captions s)
    (loadingState s) (analysisText s) (showAnalysis s) v (errorMsg s).
Definition setErrorMsg (v : option string) : State :=
  mkState (currentImage s) (currentMimeType s) (texts s) (captions s)
    (loadingState s) (analysisText s) (showAnalysis s) (editPrompt s) v.
End Setters.

(** A block of statements, run in order. *)
Definition block (stmts : list (State → State)) (s : State) : State :=
  foldl (λ acc stmt, stmt acc) s stmts.

(** The three overlay handlers as state transitions: each reads [texts]
    and writes it back through [setTexts]. *)
Definition onAddTextOverlay (now : Z) (text : string) (s : State) : State :=
  setTexts s (addTextOverlay now text (texts s)).

Definition onUpdateTextPosition (id : string) (x y : Z) (s : State) : State :=
  setTexts s (updateTextPosition id x y (texts s)).

Definition onRemoveText (id : string) (s : State) : State :=
  setTexts s (removeText id (texts s)).

(** ** Loading an image (App.tsx, lines 41-77) *)

Module File.
Record t : Type := mk { type : string; contents : string }.
End File.

Module Blob.
(** [dataURL] is [reader.result] when [readAsDataURL] has ended: [None]
  is the [null] of a failed read. *)
Record t : Type := mk { type : string; dataURL : option string }.
End Blob.

Module Response.
(** What [fetch] resolves to; [blob] is the outcome of [response.blob()]. *)
Record t : Type := mk { ok : bool; status : Z; blob : Outcome Blob.t }.
End Response.

Section Handlers.
(** services/geminiService *)
Variable fileToGenerativePart : File.t → Outcome string.
Variable generateMagicCaptions :
  option string → string → Outcome (list GeneratedCaption.t).
Variable editMemeImage : option string → string → string → Outcome string.
Variable analyzeMemeContext : option string → string → Outcome string.
(** the browser *)
Variable fetch : string → Outcome Response.t.

Definition handleFileChange_settled (file : File.t) (r : Outcome string)
    : State → State :=
  match r with
  | Resolved base64 =>
      block [ λ s, setCurrentImage s
                     (Some ("data:" +:+ File.type file +:+ ";base64," +:+ base64));
              λ s, setCurrentMimeType s (File.type file);
              λ s, setCaptions s [];
              λ s, setTexts s [];
              λ s, setErrorMsg s None ]
  | Rejected _ =>
      block [ λ s, setErrorMsg s (Some "Failed to load image") ]
  end.

(** [files0] is [e.target.files?.[0]]. *)
Definition handleFileChange (files0 : option File.t) (s : State) : State :=
  match files0 with
  | Some file =>
      handleFileChange_settled file (fileToGenerativePart file) s
  | None => s
  end.

(** [reader.onloadend] *)
Definition onloadend (blob : Blob.t) : State → State :=
  block [ λ s, setCurrentImage s (Blob.dataURL blob);
          λ s, setCurrentMimeType s (Blob.type blob) ].

(** The handler up to its return, with the blob handed to the reader
    when [readAsDataURL] was reached. *)
Definition handleSelectTemplate_body (url : string) (s : State)
    : State * option Blob.t :=
  let failed := block [ λ s, setErrorMsg s (Some "Failed to load template") ] in
  match fetch url with
  | Resolved response =>
      match Response.blob response with
      | Resolved blob =>
          (block [ λ s, setCaptions s [];
                   λ s, setTexts s [];
                   λ s, setErrorMsg s None ] s,
           Some blob)
      | Rejected _ => (failed s, None)
      end
  | Rejected _ => (failed s, None)
  end.

(** The handler followed by the reader's callback. *)
Definition handleSelectTemplate (url : string) (s : State) : State :=
  match handleSelectTemplate_body url s with
  | (s', Some blob) => onloadend blob s'
  | (s', None) => s'
  end.

(** ** The three AI operations (App.tsx, lines 80-130) *)

Definition handleMagicCaption_settled
    (r : Outcome (list GeneratedCaption.t)) : State → State :=
  match r with
  | Resolved result =>
      block [ λ s, setCaptions s result;
              λ s, setLoadingState s IDLE ]
  | Rejected _ =>
      block [ λ s, setErrorMsg s (Some "Failed to generate captions. Try again.");
              λ s, setLoadingState s IDLE ]
  end.

Definition handleMagicCaption_begin : State → State :=
  block [ λ s, setLoadingState s GENERATING_CAPTIONS;
          λ s, setErrorMsg s None ].

Definition handleMagicCaption (s : State) : State :=
  match currentImage s with
  | Some image =>
      if negb (truthy image) then s
      else
        handleMagicCaption_settled
          (generateMagicCaptions (base64Data image) (currentMimeType s))
          (handleMagicCaption_begin s)
  | None => s
  end.

Definition handleEditImage_settled (r : Outcome string) : State → State :=
  match r with
  | Resolved newImageBase64 =>
      block [ λ s, setCurrentImage s (Some newImageBase64);
              λ s, setEditPrompt s "";
              λ s, setLoadingState s IDLE ]
  | Rejected _ =>
      block [ λ s, setErrorMsg s
                     (Some "Failed to edit image. The model might be busy.");
              λ s, setLoadingState s IDLE ]
  end.

Definition handleEditImage_begin : State → State :=
  block [ λ s, setLoadingState s EDITING_IMAGE;
          λ s, setErrorMsg s None ].

Definition handleEditImage (s : State) : State :=
  match currentImage s with
  | Some image =>
      if negb (truthy image) || negb (truthy (trim (editPrompt s))) then s
      else
        handleEditImage_settled
          (editMemeImage (base64Data image) (currentMimeType s) (editPrompt s))
          (handleEditImage_begin s)
  | None => s
  end.

Definition handleAnalyze_settled (r : Outcome string) : State → State :=
  match r with
  | Resolved analysis =>
      block [ λ s, setAnalysisText s analysis;
              λ s, setShowAnalysis s true;
              λ s, setLoadingState s IDLE ]
  | Rejected _ =>
      block [ λ s, setErrorMsg s (Some "Analysis failed.");
              λ s, setLoadingState s IDLE ]
  end.

Definition handleAnalyze_begin : State → State :=
  block [ λ s, setLoadingState s ANALYZING;
          λ s, setErrorMsg s None ].

Definition handleAnalyze (s : State) : State :=
  match currentImage s with
  | Some image =>
      if negb (truthy image) then s
      else
        handleAnalyze_settled
          (analyzeMemeContext (base64Data image) (currentMimeType s))
          (handleAnalyze_begin s)
  | None => s
  end.
End Handlers.

(** ** What the view shows (App.tsx, lines 153-389) *)

(** [{currentImage && (...)}]: the AI tools (line 201) and the manual
    caption input (line 364). *)
Definition showAITools (s : State) : bool := truthy_opt (currentImage s).

(** [disabled={loadingState === LoadingState.EDITING_IMAGE || !editPrompt}]
    (line 233). *)
Definition editButtonDisabled (s : State) : bool :=
  bool_decide (loadingState s = EDITING_IMAGE) || negb (truthy (editPrompt s)).

(** The "Processing image..." layer (line 323). *)
Definition showLoadingOverlay (s : State) : bool :=
  negb (bool_decide (loadingState s = IDLE))
  && negb (bool_decide (loadingState s = GENERATING_CAPTIONS))
  && negb (bool_decide (loadingState s = ANALYZING)).

(** [{errorMsg && (...)}] (line 332). *)
Definition showError (s : State) : bool := truthy_opt (errorMsg s).

(** [{captions.length > 0 && (...)}] (line 340). *)
Definition showSuggestions (s : State) : bool :=
  bool_decide (0 < List.length (captions s))%nat.

(** ** The event handlers wired in the view *)

(** The manual caption input (lines 370-375) is uncontrolled: its value
    lives in the DOM.  The result is the new state and the new value of
    the input. *)
Definition onKeyDown (key value : string) (now : Z) (s : State)
    : State * string :=
  if decide (key = "Enter") then (onAddTextOverlay now value s, "")
  else (s, value).

(** An AI handler up to its [await]: the guard, then the busy flag and the
    cleared error. *)
Definition handleMagicCaption_start (s : State) : State :=
  match currentImage s with
  | Some image => if negb (truthy image) then s else handleMagicCaption_begin s
  | None => s
  end.

Definition handleEditImage_start (s : State) : State :=
  match currentImage s with
  | Some image =>
      if negb (truthy image) || negb (truthy (trim (editPrompt s))) then s
      else handleEditImage_begin s
  | None => s
  end.

Definition handleAnalyze_start (s : State) : State :=
  match currentImage s with
  | Some image => if negb (truthy image) then s else handleAnalyze_begin s
  | None => s
  end.

(** What can happen to the state cells: the handlers bound in the view,
    and the completions of what they started.  An event carries what the
    outside world answered.  A completion is offered at any time and with
    any answer, and an element is offered whether or not it is rendered or
    enabled, so the runs below include every run of the application. *)
Inductive Event : Type :=
  | FileChange (files0 : option File.t) (r : Outcome string)      (* line 188 *)
  | SelectTemplate (url : string) (r : Outcome Response.t)        (* line 196 *)
  | LoadEnd (blob : Blob.t)                                       (* line 65 *)
  | ClickMagicCaption                                             (* line 211 *)
  | SettleMagicCaption (r : Outcome (list GeneratedCaption.t))
  | TypePrompt (value : string)                                   (* line 227 *)
  | ClickEdit                                                     (* line 232 *)
  | SettleEdit (r : Outcome string)
  | ClickAnalyze                                                  (* line 246 *)
  | SettleAnalyze (r : Outcome string)
  | DragEnd (idx : nat)                                           (* line 292 *)
  | ClickRemove (idx : nat)                                       (* line 306 *)
  | ClickSuggestion (idx : nat) (now : Z)                         (* line 347 *)
  | KeyDown (key value : string) (now : Z)                        (* line 370 *)
  | CloseAnalysis.                                                (* line 385 *)

Definition handle (e : Event) (s : State) : State :=
  match e with
  | FileChange files0 r => handleFileChange (λ _, r) files0 s
  | SelectTemplate url r => (handleSelectTemplate_body (λ _, r) url s).1
  | LoadEnd blob => onloadend blob s
  | ClickMagicCaption => handleMagicCaption_start s
  | SettleMagicCaption r => handleMagicCaption_settled r s
  | TypePrompt value => setEditPrompt s value
  | ClickEdit => handleEditImage_start s
  | SettleEdit r => handleEditImage_settled r s
  | ClickAnalyze => handleAnalyze_start s
  | SettleAnalyze r => handleAnalyze_settled r s
  | DragEnd idx => s
  | ClickRemove idx =>
      match texts s !! idx with
      | Some t => onRemoveText (TextOverlay.id t) s
      | None => s
      end
  | ClickSuggestion idx now =>
      match captions s !! idx with
      | Some cap => onAddTextOverlay now (GeneratedCaption.text cap) s
      | None => s
      end
  | KeyDown key value now => (onKeyDown key value now s).1
  | CloseAnalysis => setShowAnalysis s false
  end.

Definition run (events : list Event) (s : State) : State :=
  foldl (λ acc e, handle e acc) s events.

Definition reachable (s : State) : Prop :=
  ∃ events, s = run events initialState.

(** ** Predicates used in the statements *)

Fixpoint allWhiteSpace (s : string) : bool :=
  match s with
  | "" => true
  | String a s' => isWhiteSpace a && allWhiteSpace s'
  end.

Fixpoint noComma (s : string) : bool :=
  match s with
  | "" => true
  | String a s' => negb (bool_decide (a = ","%char)) && noComma s'
  end.

Definition ids (texts : list TextOverlay.t) : list string :=
  TextOverlay.id <$> texts.

Definition inRange (t : TextOverlay.t) : Prop :=
  (0 ≤ TextOverlay.x t ≤ 100)%Z ∧ (0 ≤ TextOverlay.y t ≤ 100)%Z.

(** An overlay as [addTextOverlay] makes it. *)
Definition asCreated (t : TextOverlay.t) : Prop :=
  TextOverlay.x t = 50
  ∧ (TextOverlay.y t = 10 ∨ TextOverlay.y t = 90)
  ∧ TextOverlay.fontSize t = 32
  ∧ TextOverlay.color t = "#FFFFFF"
  ∧ TextOverlay.isUppercase t = true.

(** The messages the handlers write to the error slot. *)
Definition errorMessages : list string :=
  [ "Failed to load image";
    "Failed to load template";
    "Failed to generate captions. Try again.";
    "Failed to edit image. The model might be busy.";
    "Analysis failed." ].

(** ** Sample inputs *)

Module Sample.
Definition top : TextOverlay.t :=
  TextOverlay.mk "1700000000000" "LOL" 50 10 32 "#FFFFFF" true.
Definition bottom : TextOverlay.t :=
  TextOverlay.mk "1700000000917" "OK" 50 90 32 "#FFFFFF" true.

(** A session with a JPEG loaded, two overlays, one suggestion, an
    analysis from before, a prompt typed in and an error showing. *)
Definition session : State :=
  mkState (Some "data:image/jpeg;base64,AAAA") "image/jpeg"
    [top; bottom] [GeneratedCaption.mk "so true" Funny] IDLE
    "A cat looking at a salad." false "add sunglasses"
    (Some "Analysis failed.").

Definition upload : File.t := File.mk "image/png" "PNG-bytes".

Definition fileToGenerativePart (f : File.t) : Outcome string :=
  Resolved "iVBORw0KGgo=".

(** A template server that answers every request. *)
Definition fetch (url : string) : Outcome Response.t :=
  Resolved (Response.mk true 200
    (Resolved (Blob.mk "image/jpeg" (Some "data:image/jpeg;base64,BBBB")))).

(** A template server that answers 404 with an HTML page. *)
Definition fetch404 (url : string) : Outcome Response.t :=
  Resolved (Response.mk false 404
    (Resolved (Blob.mk "text/html"
       (Some "data:text/html;base64,PGgxPk5vdCBGb3VuZDwvaDE+")))).

(** No network. *)
Definition fetchOffline (url : string) : Outcome Response.t :=
  Rejected "TypeError: Failed to fetch".

Definition generateMagicCaptions (data : option string) (mime : string)
    : Outcome (list GeneratedCaption.t) :=
  Resolved [GeneratedCaption.mk "me at 3am" Viral].

(** The editor answers with a PNG data URL. *)
Definition editMemeImage (data : option string) (mime prompt : string)
    : Outcome string :=
  Resolved "data:image/png;base64,CCCC".

Definition editMemeImageBusy (data : option string) (mime prompt : string)
    : Outcome string :=
  Rejected "503".

Definition analyzeMemeContext (data : option string) (mime : string)
    : Outcome string :=
  Resolved "Still a cat.".
End Sample.


(** * Properties *)

(** ** The primitives on sample inputs *)

Example addTextOverlay_first :
  addTextOverlay 1700000000000 "LOL" [] =
  [TextOverlay.mk "1700000000000" "LOL" 50 10 32 "#FFFFFF" true].
Proof. vm_compute. reflexivity. Qed.

Example trim_blank : trim "    " = "".
Proof. reflexivity. Qed.

Example trim_word : trim "  add hat  " = "add hat".
Proof. reflexivity. Qed.

Example base64Data_dataURL :
  base64Data "data:image/png;base64,AAAA" = Some "AAAA".
Proof. reflexivity. Qed.

Example base64Data_no_comma : base64Data "nocomma" = None.
Proof. reflexivity. Qed.

(** ** Stepping through blocks of setter calls *)

Lemma block_nil s : block [] s = s.
Proof. reflexivity. Qed.

Lemma block_cons stmt stmts s : block (stmt :: stmts) s = block stmts (stmt s).
Proof. reflexivity. Qed.

(** ** The overlay store *)

Section OverlayStore.
Implicit Types (texts : list TextOverlay.t) (id text : string) (now x y : Z).

Lemma addTextOverlay_ids now text texts :
  TextOverlay.id <$> addTextOverlay now text texts =
  (TextOverlay.id <$> texts) ++ [toString now].
Proof. unfold addTextOverlay. by rewrite fmap_app. Qed.

Lemma addTextOverlay_length now text texts :
  List.length (addTextOverlay now text texts) = S (List.length texts).
Proof. unfold addTextOverlay. rewrite length_app. simpl. lia. Qed.

Lemma toString_inj : Inj (=) (=) toString.
Proof. unfold toString. apply _. Qed.

Lemma addAll_ids calls texts :
  TextOverlay.id <$> addAll calls texts =
  (TextOverlay.id <$> texts) ++ ((toString ∘ fst) <$> calls).
Proof.
  revert texts. induction calls as [|[now text] calls IH]; intros texts.
  - simpl. by rewrite app_nil_r.
  - simpl. rewrite IH, addTextOverlay_ids, <- app_assoc. reflexivity.
Qed.

(** What [Date.now] does give: ids differ as long as the clock values do. *)
Lemma addAll_ids_distinct calls :
  NoDup (calls.*1) → NoDup (TextOverlay.id <$> addAll calls []).
Proof.
  intros Hclock. rewrite addAll_ids. simpl.
  rewrite list_fmap_compose. apply (NoDup_fmap_2 _). exact Hclock.
Qed.

Lemma updateTextPosition_length id x y texts :
  List.length (updateTextPosition id x y texts) = List.length texts.
Proof. unfold updateTextPosition. apply length_fmap. Qed.

Lemma updateTextPosition_lookup id x y texts (i : nat) t :
  texts !! i = Some t →
  updateTextPosition id x y texts !! i =
  Some (if decide (TextOverlay.id t = id) then TextOverlay.with_xy t x y else t).
Proof.
  intros Ht. unfold updateTextPosition. rewrite list_lookup_fmap, Ht.
  reflexivity.
Qed.

Lemma updateTextPosition_ids id x y texts :
  TextOverlay.id <$> updateTextPosition id x y texts = TextOverlay.id <$> texts.
Proof.
  unfold updateTextPosition. rewrite <- list_fmap_compose.
  apply list_fmap_ext. intros i t _. simpl. by case_decide.
Qed.
End OverlayStore.

(** Two overlays used in the examples below. *)
Lemma sample_ids_collide :
  TextOverlay.id <$> addAll [(1700000000000, "top"); (1700000000000, "bottom")] [] =
  ["1700000000000"; "1700000000000"].
Proof. vm_compute. reflexivity. Qed.

(** C1: the ids of the overlays created by a run of [add] are pairwise
    distinct, also for two calls that read the same clock value.  The code
    takes the id from the clock alone ([Date.now().toString()]), so two
    calls at one clock value create two overlays with the same id, on any
    store: the ids of the store are then not duplicate-free. *)
Theorem addTextOverlay_same_instant_same_id :
  ∀ (now : Z) (text1 text2 : string) (texts : list TextOverlay.t),
    ∃ o1 o2,
      addTextOverlay now text2 (addTextOverlay now text1 texts) =
        texts ++ [o1; o2]
      ∧ TextOverlay.id o1 = TextOverlay.id o2
      ∧ ¬ NoDup (TextOverlay.id <$>
                   addTextOverlay now text2 (addTextOverlay now text1 texts)).
Proof.
  intros now text1 text2 texts.
  eexists _, _. split; [|split].
  - unfold addTextOverlay. cbv zeta. rewrite <- app_assoc. reflexivity.
  - reflexivity.
  - rewrite !addTextOverlay_ids, <- app_assoc. simpl.
    intros Hnd. apply NoDup_app in Hnd as (_ & _ & Hnd).
    apply NoDup_cons in Hnd as [Hnotin _].
    apply Hnotin. apply list_elem_of_singleton. reflexivity.
Qed.

(** C5: [add] appends one overlay with x = 50, font size 32, colour white
    and upper-casing on; its y is 10 when the store is empty at the call
    and 90 otherwise, whatever was added or removed before. *)
Theorem addTextOverlay_defaults :
  ∀ (now : Z) (text : string) (texts : list TextOverlay.t),
    ∃ o,
      addTextOverlay now text texts = texts ++ [o]
      ∧ TextOverlay.text o = text
      ∧ TextOverlay.x o = 50
      ∧ TextOverlay.y o = match texts with [] => 10 | _ :: _ => 90 end
      ∧ TextOverlay.fontSize o = 32
      ∧ TextOverlay.color o = "#FFFFFF"
      ∧ TextOverlay.isUppercase o = true.
Proof.
  intros now text texts. eexists. split; [reflexivity|].
  simpl. repeat split. by destruct texts.
Qed.

(** The scenario of the specification: the store emptied by a removal
    gets its next overlay at the top again. *)
Example add_after_removal_is_top :
  TextOverlay.y <$>
    addTextOverlay 3 "again" (removeText "1" (addTextOverlay 1 "LOL" [])) = [10]
  ∧ TextOverlay.y <$> addAll [(1, "LOL"); (2, "OK"); (3, "third")] [] = [10; 90; 90]
  ∧ removeText "1" (addAll [(1, "LOL"); (2, "OK")] []) =
    [TextOverlay.mk "2" "OK" 50 90 32 "#FFFFFF" true].
Proof. vm_compute. auto. Qed.

(** What [updateTextPosition] stores in a matching overlay: the arguments
    as they are. *)
Lemma updateTextPosition_stores id x y texts t :
  t ∈ texts → TextOverlay.id t = id →
  TextOverlay.with_xy t x y ∈ updateTextPosition id x y texts.
Proof.
  intros Hin Hid. unfold updateTextPosition.
  apply list_elem_of_fmap. exists t. split; [|done].
  by rewrite decide_True.
Qed.

(** C6, as stated, fails: [updateTextPosition] neither clamps nor rejects.
    On the store holding one overlay "1" at (50,10),
    [updateTextPosition "1" 150 (-5)] leaves it at (150,-5), outside
    [0,100]. *)
Theorem updateTextPosition_out_of_range :
  let o := TextOverlay.mk "1" "LOL" 50 10 32 "#FFFFFF" true in
  updateTextPosition "1" 150 (-5) [o] =
    [TextOverlay.mk "1" "LOL" 150 (-5) 32 "#FFFFFF" true]
  ∧ ¬ Forall (λ t, (0 ≤ TextOverlay.x t ≤ 100)%Z ∧ (0 ≤ TextOverlay.y t ≤ 100)%Z)
        (updateTextPosition "1" 150 (-5) [o]).
Proof.
  split; [reflexivity|].
  intros H. apply Forall_cons in H as [[[_ Hx] _] _]. simpl in Hx. lia.
Qed.

(** C6, amended: [updatePosition(id, x, y)] stores x and y as they are
    given in every overlay that carries the id, without clamping and
    without rejecting; so the coordinates of the matched overlays are
    within [0,100] afterwards exactly when x and y are. *)
Theorem updateTextPosition_stores_verbatim :
  ∀ (id : string) (x y : Z) (texts : list TextOverlay.t) (t : TextOverlay.t),
    t ∈ texts →
    TextOverlay.id t = id →
    TextOverlay.with_xy t x y ∈ updateTextPosition id x y texts
    ∧ (∀ t', t' ∈ updateTextPosition id x y texts → TextOverlay.id t' = id →
             TextOverlay.x t' = x ∧ TextOverlay.y t' = y)
    ∧ ((∀ t', t' ∈ updateTextPosition id x y texts → TextOverlay.id t' = id →
              inRange t')
       ↔ (0 ≤ x ≤ 100)%Z ∧ (0 ≤ y ≤ 100)%Z).
Proof.
  intros id x y texts t Hin Hid.
  assert (∀ t', t' ∈ updateTextPosition id x y texts → TextOverlay.id t' = id →
                TextOverlay.x t' = x ∧ TextOverlay.y t' = y) as Hstored.
  { intros t' Ht' Hid'. unfold updateTextPosition in Ht'.
    apply list_elem_of_fmap in Ht' as (t0 & -> & _).
    destruct (decide (TextOverlay.id t0 = id)) as [_|Hne]; [done|].
    by destruct Hne. }
  pose proof (updateTextPosition_stores id x y texts t Hin Hid) as Hmoved.
  split; [exact Hmoved|]. split; [exact Hstored|]. split.
  - intros Hrange. apply (Hrange _ Hmoved). simpl. exact Hid.
  - intros Hxy t' Ht' Hid'. destruct (Hstored t' Ht' Hid') as [Hx Hy].
    unfold inRange. by rewrite Hx, Hy.
Qed.

Lemma updateTextPosition_stores_verbatim_witness :
  TextOverlay.mk "1700000000000" "LOL" 20 30 32 "#FFFFFF" true
    ∈ updateTextPosition "1700000000000" 20 30 [Sample.top; Sample.bottom]
  ∧ TextOverlay.mk "1700000000000" "LOL" 150 (-5) 32 "#FFFFFF" true
    ∈ updateTextPosition "1700000000000" 150 (-5) [Sample.top; Sample.bottom].
Proof.
  split.
  - apply (updateTextPosition_stores_verbatim "1700000000000" 20 30
             [Sample.top; Sample.bottom] Sample.top);
      [apply elem_of_cons; by left|reflexivity].
  - apply (updateTextPosition_stores_verbatim "1700000000000" 150 (-5)
             [Sample.top; Sample.bottom] Sample.top);
      [apply elem_of_cons; by left|reflexivity].
Defined.


(** Two overlays created in the same millisecond go together. *)
Example removeText_duplicates :
  let texts := addAll [(7, "a"); (7, "b"); (8, "c")] [] in
  removeText "7" texts = [TextOverlay.mk "8" "c" 50 90 32 "#FFFFFF" true]
  ∧ TextOverlay.x <$> updateTextPosition "7" 20 30 texts = [20; 20; 50].
Proof. vm_compute. auto. Qed.

(** ** Loading an image *)

Section Loading.
Variable fileToGenerativePart : File.t → Outcome string.
Variable fetch : string → Outcome Response.t.

Lemma handleFileChange_resolved file base64 s :
  fileToGenerativePart file = Resolved base64 →
  handleFileChange fileToGenerativePart (Some file) s =
  mkState (Some ("data:" +:+ File.type file +:+ ";base64," +:+ base64))
    (File.type file) [] [] (loadingState s) (analysisText s)
    (showAnalysis s) (editPrompt s) None.
Proof. intros Hr. unfold handleFileChange. rewrite Hr. reflexivity. Qed.

Lemma handleFileChange_rejected file err s :
  fileToGenerativePart file = Rejected err →
  handleFileChange fileToGenerativePart (Some file) s =
  setErrorMsg s (Some "Failed to load image").
Proof. intros Hr. unfold handleFileChange. rewrite Hr. reflexivity. Qed.

Lemma handleSelectTemplate_resolved url response blob s :
  fetch url = Resolved response → Response.blob response = Resolved blob →
  handleSelectTemplate fetch url s =
  mkState (Blob.dataURL blob) (Blob.type blob) [] [] (loadingState s)
    (analysisText s) (showAnalysis s) (editPrompt s) None.
Proof.
  intros Hf Hb. unfold handleSelectTemplate, handleSelectTemplate_body.
  rewrite Hf, Hb. reflexivity.
Qed.

(** The network failure: [fetch] rejects, or the body cannot be read. *)
Lemma handleSelectTemplate_rejected url s :
  (∃ err, fetch url = Rejected err) ∨
  (∃ response err,
      fetch url = Resolved response ∧ Response.blob response = Rejected err) →
  handleSelectTemplate fetch url s =
  setErrorMsg s (Some "Failed to load template").
Proof.
  unfold handleSelectTemplate, handleSelectTemplate_body.
  intros [[err Hf]|(response & err & Hf & Hb)]; rewrite Hf; [|rewrite Hb];
    reflexivity.
Qed.
End Loading.

(** C2: a successful load of a new image, from an uploaded file or from a
    template URL, leaves the overlay store and the suggestion list empty,
    whatever they held before. *)
Theorem load_clears_overlays_and_captions :
  ∀ s : State,
    (∀ fileToGenerativePart file base64,
        fileToGenerativePart file = Resolved base64 →
        texts (handleFileChange fileToGenerativePart (Some file) s) = []
        ∧ captions (handleFileChange fileToGenerativePart (Some file) s) = [])
    ∧ (∀ fetch url response blob,
          fetch url = Resolved response →
          Response.blob response = Resolved blob →
          texts (handleSelectTemplate fetch url s) = []
          ∧ captions (handleSelectTemplate fetch url s) = []).
Proof.
  intros s. split.
  - intros f2g file base64 Hfile.
    by rewrite (handleFileChange_resolved f2g file base64 s Hfile).
  - intros fetch url response blob Hfetch Hblob.
    by rewrite (handleSelectTemplate_resolved fetch url response blob s Hfetch Hblob).
Qed.

Lemma load_clears_overlays_and_captions_witness :
  List.length (texts Sample.session) = 2%nat
  ∧ (texts (handleFileChange Sample.fileToGenerativePart
              (Some Sample.upload) Sample.session) = []
     ∧ captions (handleFileChange Sample.fileToGenerativePart
                   (Some Sample.upload) Sample.session) = [])
  ∧ (texts (handleSelectTemplate Sample.fetch "/templates/drake.jpg"
              Sample.session) = []
     ∧ captions (handleSelectTemplate Sample.fetch "/templates/drake.jpg"
                   Sample.session) = []).
Proof.
  destruct (load_clears_overlays_and_captions Sample.session) as [Hfile Hremote].
  split; [reflexivity|]. split.
  - apply (Hfile Sample.fileToGenerativePart Sample.upload "iVBORw0KGgo=").
    reflexivity.
  - apply (Hremote Sample.fetch "/templates/drake.jpg"
             (Response.mk true 200
                (Resolved (Blob.mk "image/jpeg" (Some "data:image/jpeg;base64,BBBB"))))
             (Blob.mk "image/jpeg" (Some "data:image/jpeg;base64,BBBB")));
      reflexivity.
Defined.

(** C9: [loadFromRemote] fails on a network failure and on a non-success
    HTTP response, and a failure leaves image, mime type and overlays as
    they were.  The code never reads [response.ok] or [response.status]:
    a 404 answer is loaded like an image.  On the sample session the HTML
    error page becomes the current image, both overlays and the
    suggestion are gone, and no error is reported. *)
Theorem handleSelectTemplate_http_error_loaded :
  (∀ ok status blob url s,
      handleSelectTemplate
        (λ _, Resolved (Response.mk ok status (Resolved blob))) url s =
      handleSelectTemplate
        (λ _, Resolved (Response.mk true 200 (Resolved blob))) url s)
  ∧ texts Sample.session = [Sample.top; Sample.bottom]
  ∧ handleSelectTemplate Sample.fetch404 "/templates/gone.jpg" Sample.session =
    mkState (Some "data:text/html;base64,PGgxPk5vdCBGb3VuZDwvaDE+") "text/html"
      [] [] IDLE "A cat looking at a salad." false "add sunglasses" None.
Proof. repeat split. Qed.

(** The half of C9 that the code does implement. *)
Example handleSelectTemplate_offline :
  handleSelectTemplate Sample.fetchOffline "/templates/drake.jpg" Sample.session =
  setErrorMsg Sample.session (Some "Failed to load template").
Proof. reflexivity. Qed.

(** ** The operation pipeline *)

Section Pipeline.
Variable generateMagicCaptions :
  option string → string → Outcome (list GeneratedCaption.t).
Variable editMemeImage : option string → string → string → Outcome string.
Variable analyzeMemeContext : option string → string → Outcome string.

(** Entering the body raises the busy flag of the operation. *)
Lemma begin_busy s :
  loadingState (handleMagicCaption_begin s) = GENERATING_CAPTIONS
  ∧ loadingState (handleEditImage_begin s) = EDITING_IMAGE
  ∧ loadingState (handleAnalyze_begin s) = ANALYZING.
Proof. repeat split. Qed.

(** The [finally] block: whatever the state is when the promise settles,
    and however it settles, the flag is lowered. *)
Lemma handleMagicCaption_settled_idle r s :
  loadingState (handleMagicCaption_settled r s) = IDLE.
Proof. by destruct r. Qed.

Lemma handleEditImage_settled_idle r s :
  loadingState (handleEditImage_settled r s) = IDLE.
Proof. by destruct r. Qed.

Lemma handleAnalyze_settled_idle r s :
  loadingState (handleAnalyze_settled r s) = IDLE.
Proof. by destruct r. Qed.

(** The completion of an edit never touches the overlays, whatever was
    done to them while the adapter was running. *)
Lemma handleEditImage_settled_texts r s :
  texts (handleEditImage_settled r s) = texts s.
Proof. by destruct r. Qed.

(** The guards. *)
Lemma handleMagicCaption_entered s image :
  currentImage s = Some image → truthy image = true →
  handleMagicCaption generateMagicCaptions s =
  handleMagicCaption_settled
    (generateMagicCaptions (base64Data image) (currentMimeType s))
    (handleMagicCaption_begin s).
Proof. intros Hi Ht. unfold handleMagicCaption. by rewrite Hi, Ht. Qed.

Lemma handleEditImage_entered s image :
  currentImage s = Some image → truthy image = true →
  truthy (trim (editPrompt s)) = true →
  handleEditImage editMemeImage s =
  handleEditImage_settled
    (editMemeImage (base64Data image) (currentMimeType s) (editPrompt s))
    (handleEditImage_begin s).
Proof. intros Hi Ht Hp. unfold handleEditImage. by rewrite Hi, Ht, Hp. Qed.

Lemma handleAnalyze_entered s image :
  currentImage s = Some image → truthy image = true →
  handleAnalyze analyzeMemeContext s =
  handleAnalyze_settled
    (analyzeMemeContext (base64Data image) (currentMimeType s))
    (handleAnalyze_begin s).
Proof. intros Hi Ht. unfold handleAnalyze. by rewrite Hi, Ht. Qed.

(** A blank prompt: the adapter is not called and nothing changes. *)
Lemma handleEditImage_blank_prompt s :
  truthy (trim (editPrompt s)) = false → handleEditImage editMemeImage s = s.
Proof.
  intros Hp. unfold handleEditImage. rewrite Hp.
  destruct (currentImage s); [|done]. by rewrite orb_true_r.
Qed.

(** No path of [handleEditImage] calls [setCurrentMimeType]. *)
Lemma handleEditImage_mimeType s :
  currentMimeType (handleEditImage editMemeImage s) = currentMimeType s.
Proof.
  unfold handleEditImage. destruct (currentImage s) as [image|]; [|done].
  destruct (negb (truthy image) || negb (truthy (trim (editPrompt s))));
    [done|].
  by destruct (editMemeImage _ _ _).
Qed.
End Pipeline.

(** C3: with an image loaded and a prompt that is not blank, an edit that
    succeeds replaces the image by the adapter's answer and leaves the
    overlays as they were; an edit that fails leaves the image, the
    overlays and the prompt as they were and sets the error. *)
Theorem handleEditImage_frame :
  ∀ editMemeImage (s : State) (image : string),
    currentImage s = Some image →
    truthy image = true →
    truthy (trim (editPrompt s)) = true →
    let s' := handleEditImage editMemeImage s in
    match editMemeImage (base64Data image) (currentMimeType s) (editPrompt s) with
    | Resolved newImageBase64 =>
        currentImage s' = Some newImageBase64 ∧ texts s' = texts s
    | Rejected _ =>
        currentImage s' = currentImage s
        ∧ texts s' = texts s
        ∧ editPrompt s' = editPrompt s
        ∧ errorMsg s' = Some "Failed to edit image. The model might be busy."
    end.
Proof.
  intros edit s image Hi Ht Hp s'. subst s'.
  rewrite (handleEditImage_entered edit s image Hi Ht Hp).
  destruct (edit _ _ _); simpl; auto.
Qed.

Lemma handleEditImage_frame_witness :
  (currentImage (handleEditImage Sample.editMemeImage Sample.session) =
     Some "data:image/png;base64,CCCC"
   ∧ texts (handleEditImage Sample.editMemeImage Sample.session) =
     [Sample.top; Sample.bottom])
  ∧ (currentImage (handleEditImage Sample.editMemeImageBusy Sample.session) =
       Some "data:image/jpeg;base64,AAAA"
     ∧ texts (handleEditImage Sample.editMemeImageBusy Sample.session) =
       [Sample.top; Sample.bottom]
     ∧ editPrompt (handleEditImage Sample.editMemeImageBusy Sample.session) =
       "add sunglasses"
     ∧ errorMsg (handleEditImage Sample.editMemeImageBusy Sample.session) =
       Some "Failed to edit image. The model might be busy.").
Proof.
  split.
  - apply (handleEditImage_frame Sample.editMemeImage Sample.session
             "data:image/jpeg;base64,AAAA"); reflexivity.
  - apply (handleEditImage_frame Sample.editMemeImageBusy Sample.session
             "data:image/jpeg;base64,AAAA"); reflexivity.
Defined.

(** C4: when a run of [generateCaptions], [editImage] or [analyze] that
    entered its body completes, the operation state is idle, whether the
    adapter answered or failed; this holds for the run as a whole and for
    the completion taken alone, on whatever state it finds. *)
Theorem operations_end_idle :
  ∀ (s : State) (image : string),
    currentImage s = Some image →
    truthy image = true →
    (∀ generateMagicCaptions,
        loadingState (handleMagicCaption generateMagicCaptions s) = IDLE)
    ∧ (∀ editMemeImage,
          truthy (trim (editPrompt s)) = true →
          loadingState (handleEditImage editMemeImage s) = IDLE)
    ∧ (∀ analyzeMemeContext,
          loadingState (handleAnalyze analyzeMemeContext s) = IDLE)
    ∧ (∀ r1 r2 r3 s1,
          loadingState (handleMagicCaption_settled r1 s1) = IDLE
          ∧ loadingState (handleEditImage_settled r2 s1) = IDLE
          ∧ loadingState (handleAnalyze_settled r3 s1) = IDLE).
Proof.
  intros s image Hi Ht. repeat split.
  - intros gen. rewrite (handleMagicCaption_entered gen s image Hi Ht).
    apply handleMagicCaption_settled_idle.
  - intros edit Hp. rewrite (handleEditImage_entered edit s image Hi Ht Hp).
    apply handleEditImage_settled_idle.
  - intros analyze. rewrite (handleAnalyze_entered analyze s image Hi Ht).
    apply handleAnalyze_settled_idle.
  - apply handleMagicCaption_settled_idle.
  - apply handleEditImage_settled_idle.
  - apply handleAnalyze_settled_idle.
Qed.

Lemma operations_end_idle_witness :
  loadingState (handleMagicCaption (λ _ _, Rejected "quota") Sample.session) = IDLE
  ∧ loadingState (handleEditImage Sample.editMemeImage Sample.session) = IDLE
  ∧ loadingState (handleEditImage Sample.editMemeImageBusy Sample.session) = IDLE
  ∧ loadingState (handleAnalyze Sample.analyzeMemeContext Sample.session) = IDLE.
Proof.
  destruct (operations_end_idle Sample.session "data:image/jpeg;base64,AAAA"
              eq_refl eq_refl) as (Hcaption & Hedit & Hanalyze & _).
  split; [apply Hcaption|].
  split; [apply Hedit; reflexivity|].
  split; [apply Hedit; reflexivity|apply Hanalyze].
Defined.

(** The captioning scenario of the specification: the adapter fails, the
    suggestions stay, the error is set, the state is idle. *)
Example handleMagicCaption_failure :
  handleMagicCaption (λ _ _, Rejected "quota") Sample.session =
  mkState (Some "data:image/jpeg;base64,AAAA") "image/jpeg"
    [Sample.top; Sample.bottom] [GeneratedCaption.mk "so true" Funny] IDLE
    "A cat looking at a salad." false "add sunglasses"
    (Some "Failed to generate captions. Try again.").
Proof. reflexivity. Qed.

(** C7: no operation changes the image content without setting the
    matching mime type.  Upload and template load write both cells;
    [handleEditImage] writes the image only, on every path.  On the sample
    session (a JPEG) the editor's PNG becomes the image while the mime
    type stays "image/jpeg". *)
Theorem handleEditImage_keeps_stale_mimeType :
  (∀ editMemeImage s,
      currentMimeType (handleEditImage editMemeImage s) = currentMimeType s)
  ∧ currentImage (handleEditImage Sample.editMemeImage Sample.session) =
      Some "data:image/png;base64,CCCC"
  ∧ currentMimeType (handleEditImage Sample.editMemeImage Sample.session) =
      "image/jpeg".
Proof.
  split; [apply handleEditImage_mimeType|]. split; reflexivity.
Qed.

(** The sibling paths do write the mime type with the image. *)
Example loads_set_mimeType :
  currentMimeType (handleFileChange Sample.fileToGenerativePart
                     (Some Sample.upload) Sample.session) = "image/png"
  ∧ currentMimeType (handleSelectTemplate Sample.fetch404 "/t" Sample.session) =
    "text/html".
Proof. split; reflexivity. Qed.

(** C8, as stated, fails: a successful upload does not reset the analysis
    text. *)
Lemma load_keeps_analysisText :
  ¬ (∀ fileToGenerativePart file base64 s,
       fileToGenerativePart file = Resolved base64 →
       analysisText (handleFileChange fileToGenerativePart (Some file) s) = ""
       ∧ errorMsg (handleFileChange fileToGenerativePart (Some file) s) = None).
Proof.
  intros H.
  destruct (H Sample.fileToGenerativePart Sample.upload "iVBORw0KGgo="
              Sample.session eq_refl) as [Ha _].
  discriminate Ha.
Qed.

(** C8, amended: every successful load (upload, template) and every
    successful edit leaves the error slot empty; the analysis text and its
    display flag are what they were before. *)
Theorem load_and_edit_clear_error_only :
  ∀ s : State,
    (∀ fileToGenerativePart file base64,
        fileToGenerativePart file = Resolved base64 →
        let s' := handleFileChange fileToGenerativePart (Some file) s in
        errorMsg s' = None
        ∧ analysisText s' = analysisText s
        ∧ showAnalysis s' = showAnalysis s)
    ∧ (∀ fetch url response blob,
          fetch url = Resolved response →
          Response.blob response = Resolved blob →
          let s' := handleSelectTemplate fetch url s in
          errorMsg s' = None
          ∧ analysisText s' = analysisText s
          ∧ showAnalysis s' = showAnalysis s)
    ∧ (∀ editMemeImage image newImageBase64,
          currentImage s = Some image →
          truthy image = true →
          truthy (trim (editPrompt s)) = true →
          editMemeImage (base64Data image) (currentMimeType s) (editPrompt s) =
            Resolved newImageBase64 →
          let s' := handleEditImage editMemeImage s in
          errorMsg s' = None
          ∧ analysisText s' = analysisText s
          ∧ showAnalysis s' = showAnalysis s).
Proof.
  intros s. split; [|split].
  - intros f2g file base64 Hfile s'. subst s'.
    by rewrite (handleFileChange_resolved f2g file base64 s Hfile).
  - intros fetch url response blob Hfetch Hblob s'. subst s'.
    by rewrite (handleSelectTemplate_resolved fetch url response blob s Hfetch Hblob).
  - intros edit image new Hi Ht Hp Hedit s'. subst s'.
    by rewrite (handleEditImage_entered edit s image Hi Ht Hp), Hedit.
Qed.

Lemma load_and_edit_clear_error_only_witness :
  errorMsg Sample.session = Some "Analysis failed."
  ∧ (let s' := handleFileChange Sample.fileToGenerativePart
                 (Some Sample.upload) Sample.session in
     errorMsg s' = None
     ∧ analysisText s' = "A cat looking at a salad."
     ∧ showAnalysis s' = false)
  ∧ (let s' := handleSelectTemplate Sample.fetch "/templates/drake.jpg"
                 Sample.session in
     errorMsg s' = None
     ∧ analysisText s' = "A cat looking at a salad."
     ∧ showAnalysis s' = false)
  ∧ (let s' := handleEditImage Sample.editMemeImage Sample.session in
     errorMsg s' = None
     ∧ analysisText s' = "A cat looking at a salad."
     ∧ showAnalysis s' = false).
Proof.
  destruct (load_and_edit_clear_error_only Sample.session)
    as (Hfile & Hremote & Hedit).
  split; [reflexivity|]. split; [|split].
  - apply (Hfile Sample.fileToGenerativePart Sample.upload "iVBORw0KGgo=").
    reflexivity.
  - apply (Hremote Sample.fetch "/templates/drake.jpg"
             (Response.mk true 200
                (Resolved (Blob.mk "image/jpeg" (Some "data:image/jpeg;base64,BBBB"))))
             (Blob.mk "image/jpeg" (Some "data:image/jpeg;base64,BBBB")));
      reflexivity.
  - apply (Hedit Sample.editMemeImage "data:image/jpeg;base64,AAAA"
             "data:image/png;base64,CCCC"); reflexivity.
Defined.

(** * Further properties of the overlay store *)

Section StoreAlgebra.
Implicit Types (texts : list TextOverlay.t) (id : string) (x y : Z).

Lemma removeText_cons_same t texts :
  removeText (TextOverlay.id t) (t :: texts) = removeText (TextOverlay.id t) texts.
Proof. unfold removeText. by rewrite filter_cons_False by tauto. Qed.

Lemma removeText_cons_other id t texts :
  TextOverlay.id t ≠ id → removeText id (t :: texts) = t :: removeText id texts.
Proof. intros Hne. unfold removeText. by rewrite filter_cons_True. Qed.

Lemma updateTextPosition_cons id x y t texts :
  updateTextPosition id x y (t :: texts) =
  (if decide (TextOverlay.id t = id) then TextOverlay.with_xy t x y else t)
    :: updateTextPosition id x y texts.
Proof. reflexivity. Qed.


Lemma removeText_app id texts1 texts2 :
  removeText id (texts1 ++ texts2) = removeText id texts1 ++ removeText id texts2.
Proof. unfold removeText. apply filter_app. Qed.

Lemma removeText_absent id texts :
  id ∉ ids texts → removeText id texts = texts.
Proof.
  induction texts as [|t texts IH]; [done|]. unfold ids. rewrite fmap_cons.
  intros [Hne Hrest]%not_elem_of_cons.
  rewrite removeText_cons_other by done. by rewrite IH.
Qed.

Lemma updateTextPosition_absent id x y texts :
  id ∉ ids texts → updateTextPosition id x y texts = texts.
Proof.
  induction texts as [|t texts IH]; [done|]. unfold ids. rewrite fmap_cons.
  intros [Hne Hrest]%not_elem_of_cons.
  rewrite updateTextPosition_cons, decide_False by done. by rewrite IH.
Qed.

Lemma removeText_ids id texts :
  ids (removeText id texts) = filter (λ i, i ≠ id) (ids texts).
Proof.
  unfold ids. induction texts as [|t texts IH]; [done|].
  destruct (decide (TextOverlay.id t = id)) as [<-|Hne].
  - rewrite removeText_cons_same, fmap_cons.
    by rewrite filter_cons_False by tauto.
  - rewrite removeText_cons_other, !fmap_cons by done.
    rewrite filter_cons_True by done. by rewrite IH.
Qed.
End StoreAlgebra.

(** X1: removing an id twice is the same as removing it once, and after a
    removal no overlay of the store carries the id. *)
Theorem removeText_idempotent :
  ∀ (id : string) (texts : list TextOverlay.t),
    removeText id (removeText id texts) = removeText id texts
    ∧ id ∉ ids (removeText id texts).
Proof.
  intros id texts.
  assert (id ∉ ids (removeText id texts)) as Hgone.
  { rewrite removeText_ids. intros [Hne _]%list_elem_of_filter. by apply Hne. }
  split; [|exact Hgone]. by apply removeText_absent.
Qed.

(** X2: for an id that no overlay carries, [removeText] and
    [updateTextPosition] return the store as it is. *)
Theorem absent_id_is_noop :
  ∀ (id : string) (x y : Z) (texts : list TextOverlay.t),
    id ∉ ids texts →
    removeText id texts = texts ∧ updateTextPosition id x y texts = texts.
Proof.
  intros id x y texts Habsent.
  split; [by apply removeText_absent|by apply updateTextPosition_absent].
Qed.

Lemma absent_id_is_noop_witness :
  removeText "42" [Sample.top; Sample.bottom] = [Sample.top; Sample.bottom]
  ∧ updateTextPosition "42" 0 0 [Sample.top; Sample.bottom] =
    [Sample.top; Sample.bottom].
Proof.
  apply (absent_id_is_noop "42" 0 0 [Sample.top; Sample.bottom]).
  vm_compute. intros H. repeat (apply elem_of_cons in H as [H|H]; [discriminate H|]).
  by apply elem_of_nil in H.
Defined.

(** X3: of two position updates of the same id the second one wins. *)
Theorem updateTextPosition_last_wins :
  ∀ (id : string) (x1 y1 x2 y2 : Z) (texts : list TextOverlay.t),
    updateTextPosition id x2 y2 (updateTextPosition id x1 y1 texts) =
    updateTextPosition id x2 y2 texts.
Proof.
  intros id x1 y1 x2 y2 texts. induction texts as [|t texts IH]; [done|].
  rewrite !updateTextPosition_cons, IH. f_equal.
  destruct (decide (TextOverlay.id t = id)) as [Ht|Ht].
  - by rewrite decide_True by done.
  - by rewrite decide_False by done.
Qed.

(** X4: operations on two different ids can be done in either order; a
    removal makes an earlier move of the same id irrelevant. *)
Theorem store_operations_commute :
  ∀ (id1 id2 : string) (x1 y1 x2 y2 : Z) (texts : list TextOverlay.t),
    id1 ≠ id2 →
    updateTextPosition id1 x1 y1 (updateTextPosition id2 x2 y2 texts) =
      updateTextPosition id2 x2 y2 (updateTextPosition id1 x1 y1 texts)
    ∧ removeText id1 (updateTextPosition id2 x2 y2 texts) =
      updateTextPosition id2 x2 y2 (removeText id1 texts)
    ∧ removeText id1 (removeText id2 texts) =
      removeText id2 (removeText id1 texts)
    ∧ removeText id1 (updateTextPosition id1 x1 y1 texts) = removeText id1 texts.
Proof.
  intros id1 id2 x1 y1 x2 y2 texts Hne. repeat split.
  - induction texts as [|t texts IH]; [done|].
    rewrite !updateTextPosition_cons, IH. f_equal.
    destruct (decide (TextOverlay.id t = id1)) as [H1|H1];
      destruct (decide (TextOverlay.id t = id2)) as [H2|H2]; simpl;
      repeat first [rewrite decide_True by done | rewrite decide_False by done];
      congruence.
  - induction texts as [|t texts IH]; [done|].
    rewrite updateTextPosition_cons.
    destruct (decide (TextOverlay.id t = id1)) as [H1|H1].
    + rewrite decide_False by congruence. subst id1.
      by rewrite !removeText_cons_same.
    + rewrite (removeText_cons_other id1 t) by done.
      rewrite updateTextPosition_cons, <- IH.
      rewrite removeText_cons_other; [done|]. by case_decide.
  - induction texts as [|t texts IH]; [done|].
    destruct (decide (TextOverlay.id t = id1)) as [H1|H1];
      destruct (decide (TextOverlay.id t = id2)) as [H2|H2]; try congruence.
    + subst id1. rewrite removeText_cons_same.
      rewrite (removeText_cons_other id2 t) by done.
      by rewrite removeText_cons_same.
    + subst id2. rewrite removeText_cons_same.
      rewrite (removeText_cons_other id1 t) by done.
      by rewrite removeText_cons_same.
    + rewrite !(removeText_cons_other _ t) by done. by rewrite IH.
  - induction texts as [|t texts IH]; [done|].
    rewrite updateTextPosition_cons.
    destruct (decide (TextOverlay.id t = id1)) as [H1|H1].
    + subst id1.
      change (TextOverlay.id t) with (TextOverlay.id (TextOverlay.with_xy t x1 y1)) at 1.
      by rewrite !removeText_cons_same.
    + by rewrite !removeText_cons_other, IH by done.
Qed.

Lemma store_operations_commute_witness :
  removeText "1700000000000"
    (updateTextPosition "1700000000917" 20 30 [Sample.top; Sample.bottom]) =
  updateTextPosition "1700000000917" 20 30
    (removeText "1700000000000" [Sample.top; Sample.bottom]).
Proof.
  apply (store_operations_commute "1700000000000" "1700000000917" 0 0 20 30
           [Sample.top; Sample.bottom]).
  discriminate.
Defined.



(** X6: a position update keeps the number of overlays and, overlay by
    overlay, the text, font size, colour and upper-casing; an overlay it
    moves ends at the given coordinates. *)
Theorem updateTextPosition_changes_position_only :
  ∀ (id : string) (x y : Z) (texts : list TextOverlay.t),
    List.length (updateTextPosition id x y texts) = List.length texts
    ∧ TextOverlay.text <$> updateTextPosition id x y texts =
      TextOverlay.text <$> texts
    ∧ TextOverlay.fontSize <$> updateTextPosition id x y texts =
      TextOverlay.fontSize <$> texts
    ∧ TextOverlay.color <$> updateTextPosition id x y texts =
      TextOverlay.color <$> texts
    ∧ TextOverlay.isUppercase <$> updateTextPosition id x y texts =
      TextOverlay.isUppercase <$> texts
    ∧ Forall (λ t, TextOverlay.id t = id →
                   TextOverlay.x t = x ∧ TextOverlay.y t = y)
        (updateTextPosition id x y texts).
Proof.
  intros id x y texts. split; [apply updateTextPosition_length|].
  unfold updateTextPosition.
  repeat split;
    try (rewrite <- list_fmap_compose; apply list_fmap_ext;
         intros i t _; simpl; by case_decide).
  apply Forall_fmap, Forall_forall. intros t _. simpl.
  case_decide as Ht; simpl; [done|]. intros Hid. by destruct Ht.
Qed.

(** X7: a store whose ids are pairwise distinct keeps them so under
    removals and position updates. *)
Theorem distinct_ids_preserved :
  ∀ (id : string) (x y : Z) (texts : list TextOverlay.t),
    NoDup (ids texts) →
    NoDup (ids (removeText id texts))
    ∧ NoDup (ids (updateTextPosition id x y texts)).
Proof.
  intros id x y texts Hnd. split.
  - rewrite removeText_ids. by apply NoDup_filter.
  - unfold ids. by rewrite updateTextPosition_ids.
Qed.

Lemma distinct_ids_preserved_witness :
  NoDup (ids (removeText "1700000000000" [Sample.top; Sample.bottom]))
  ∧ NoDup (ids (updateTextPosition "1700000000000" 1 2 [Sample.top; Sample.bottom])).
Proof.
  apply (distinct_ids_preserved "1700000000000" 1 2 [Sample.top; Sample.bottom]).
  vm_compute. apply NoDup_cons. split.
  - intros H. apply elem_of_cons in H as [H|H]; [discriminate H|].
    by apply elem_of_nil in H.
  - apply NoDup_cons. split; [apply not_elem_of_nil|apply NoDup_nil_2].
Defined.

(** X8: overlays added at clock values that differ from each other, to a
    store with pairwise distinct ids none of which is the decimal writing
    of one of these clock values, give a store with pairwise distinct
    ids. *)
Theorem adds_at_fresh_instants_distinct :
  ∀ (calls : list (Z * string)) (texts : list TextOverlay.t),
    NoDup (ids texts) →
    NoDup (calls.*1) →
    (∀ now, now ∈ calls.*1 → toString now ∉ ids texts) →
    NoDup (ids (addAll calls texts)).
Proof.
  intros calls texts Hstore Hclock Hfresh.
  unfold ids in *. rewrite addAll_ids. apply NoDup_app. split; [done|]. split.
  - intros i Hi Hin. rewrite list_fmap_compose in Hin.
    apply list_elem_of_fmap in Hin as (now & -> & Hnow).
    by apply (Hfresh now Hnow).
  - rewrite list_fmap_compose. by apply (NoDup_fmap_2 _).
Qed.

Lemma adds_at_fresh_instants_distinct_witness :
  NoDup (ids (addAll [(5, "a"); (6, "b")] [])).
Proof.
  apply (adds_at_fresh_instants_distinct [(5, "a"); (6, "b")] []).
  - apply NoDup_nil_2.
  - simpl. apply NoDup_cons. split.
    + intros H. apply elem_of_cons in H as [H|H]; [discriminate H|].
      by apply elem_of_nil in H.
    + apply NoDup_cons. split; [apply not_elem_of_nil|apply NoDup_nil_2].
  - intros now _. apply not_elem_of_nil.
Defined.

(** X9: overlays are kept in the order of their creation, and each keeps
    the text it was created with. *)
Theorem addAll_insertion_order :
  ∀ (calls : list (Z * string)) (texts : list TextOverlay.t),
    TextOverlay.text <$> addAll calls texts =
      (TextOverlay.text <$> texts) ++ calls.*2
    ∧ List.length (addAll calls texts) =
      (List.length texts + List.length calls)%nat.
Proof.
  intros calls. induction calls as [|[now text] calls IH]; intros texts.
  - simpl. rewrite app_nil_r. split; [done|lia].
  - simpl. destruct (IH (addTextOverlay now text texts)) as [IHt IHl].
    rewrite IHt, IHl, addTextOverlay_length. split; [|lia].
    unfold addTextOverlay. cbv zeta. rewrite fmap_app, <- app_assoc. done.
Qed.

Lemma addAll_ys now text calls texts :
  TextOverlay.y <$> addAll calls (texts ++ [TextOverlay.mk (toString now) text 50
      (if decide (List.length texts = 0%nat) then 10 else 90) 32 "#FFFFFF" true]) =
  (TextOverlay.y <$> texts)
    ++ (if decide (List.length texts = 0%nat) then 10 else 90)
    :: replicate (List.length calls) 90.
Proof.
  revert now text texts. induction calls as [|[now' text'] calls IH];
    intros now text texts.
  - simpl. by rewrite fmap_app.
  - simpl. unfold addTextOverlay. cbv zeta.
    rewrite IH. rewrite fmap_app. simpl. rewrite <- app_assoc. simpl.
    rewrite (decide_False (P := List.length (texts ++ _) = 0%nat)); [done|].
    rewrite length_app. simpl. lia.
Qed.

(** X10: on a store that starts empty and is only added to, the first
    overlay is at y = 10 and every later one at y = 90; all are at
    x = 50. *)
Theorem addAll_slots :
  ∀ (call : Z * string) (calls : list (Z * string)),
    TextOverlay.y <$> addAll (call :: calls) [] =
      10 :: replicate (List.length calls) 90
    ∧ TextOverlay.x <$> addAll (call :: calls) [] =
      replicate (S (List.length calls)) 50.
Proof.
  intros [now text] calls. split.
  - simpl. unfold addTextOverlay. cbv zeta.
    rewrite (addAll_ys now text calls []). reflexivity.
  - assert (∀ cs texts, TextOverlay.x <$> addAll cs texts =
              (TextOverlay.x <$> texts) ++ replicate (List.length cs) 50) as Hx.
    { induction cs as [|[n t] cs IH]; intros texts.
      - simpl. by rewrite app_nil_r.
      - simpl. rewrite IH. unfold addTextOverlay. cbv zeta.
        rewrite fmap_app, <- app_assoc. done. }
    exact (Hx ((now, text) :: calls) []).
Qed.

(** X11: an overlay added at a clock value whose decimal writing is not
    yet an id of the store is taken out again by removing the new id, and
    the store is as before. *)
Theorem add_then_remove_restores :
  ∀ (now : Z) (text : string) (texts : list TextOverlay.t),
    toString now ∉ ids texts →
    removeText (toString now) (addTextOverlay now text texts) = texts.
Proof.
  intros now text texts Hfresh. unfold addTextOverlay. cbv zeta.
  rewrite removeText_app, removeText_absent by done.
  unfold removeText. rewrite filter_cons_False by (simpl; tauto).
  by rewrite app_nil_r.
Qed.

Lemma add_then_remove_restores_witness :
  removeText (toString 1700000001500)
    (addTextOverlay 1700000001500 "third" [Sample.top; Sample.bottom]) =
  [Sample.top; Sample.bottom].
Proof.
  apply (add_then_remove_restores 1700000001500 "third" [Sample.top; Sample.bottom]).
  vm_compute. intros H.
  repeat (apply elem_of_cons in H as [H|H]; [discriminate H|]).
  by apply elem_of_nil in H.
Defined.

(** X12: adding and removing overlays keeps every coordinate of the store
    within [0,100]; only a position update can take one out of it. *)
Theorem add_remove_keep_in_range :
  ∀ (now : Z) (text id : string) (texts : list TextOverlay.t),
    Forall inRange texts →
    Forall inRange (addTextOverlay now text texts)
    ∧ Forall inRange (removeText id texts).
Proof.
  intros now text id texts Hin. split.
  - unfold addTextOverlay. cbv zeta. apply Forall_app. split; [done|].
    apply Forall_singleton. unfold inRange. simpl. case_decide; lia.
  - unfold removeText. rewrite Forall_forall in Hin |- *.
    intros t [_ Ht]%list_elem_of_filter. by apply Hin.
Qed.

Lemma add_remove_keep_in_range_witness :
  Forall inRange (addTextOverlay 3 "third" [Sample.top; Sample.bottom])
  ∧ Forall inRange (removeText "1700000000000" [Sample.top; Sample.bottom]).
Proof.
  apply (add_remove_keep_in_range 3 "third" "1700000000000"
           [Sample.top; Sample.bottom]).
  repeat (apply Forall_cons; split; [unfold inRange; simpl; lia|]).
  apply Forall_nil_2.
Defined.

(** * Further properties of the primitives *)

Lemma append_cons a s1 s2 : String a s1 +:+ s2 = String a (s1 +:+ s2).
Proof. reflexivity. Qed.

Lemma string_app_assoc s1 s2 s3 : (s1 +:+ s2) +:+ s3 = s1 +:+ s2 +:+ s3.
Proof.
  induction s1 as [|a s1 IH]; [done|]. rewrite !append_cons. by f_equal.
Qed.

Lemma noComma_app s1 s2 :
  noComma (s1 +:+ s2) = noComma s1 && noComma s2.
Proof.
  induction s1 as [|a s1 IH]; [done|]. rewrite append_cons. simpl.
  rewrite IH. by rewrite andb_assoc.
Qed.

Lemma split_noComma s : noComma s = true → split "," s = [s].
Proof.
  induction s as [|a s IH]; [done|]. simpl.
  intros [Ha Hs]%andb_prop. apply negb_true_iff, bool_decide_eq_false in Ha.
  rewrite decide_False by done. by rewrite IH.
Qed.

Lemma split_comma pre rest :
  noComma pre = true →
  split "," (pre +:+ String "," rest) = pre :: split "," rest.
Proof.
  induction pre as [|a pre IH].
  - intros _. change ("" +:+ String "," rest) with (String "," rest).
    reflexivity.
  - simpl. intros [Ha Hs]%andb_prop.
    apply negb_true_iff, bool_decide_eq_false in Ha.
    rewrite ?append_cons. simpl. rewrite decide_False by done. by rewrite IH.
Qed.

Lemma trimStart_allWhiteSpace s : allWhiteSpace s = true → trimStart s = "".
Proof.
  induction s as [|a s IH]; [done|]. simpl.
  intros [Ha Hs]%andb_prop. rewrite Ha. by apply IH.
Qed.

Lemma trimStart_head s :
  allWhiteSpace s = false →
  ∃ a r, trimStart s = String a r ∧ isWhiteSpace a = false.
Proof.
  induction s as [|a s IH]; [done|]. simpl.
  destruct (isWhiteSpace a) eqn:Ha; simpl; [exact IH|]. eauto.
Qed.

Lemma trimEnd_head a r : isWhiteSpace a = false → truthy (trimEnd (String a r)) = true.
Proof. intros Ha. simpl. rewrite Ha. by destruct (trimEnd r). Qed.

Lemma truthy_trim s : truthy (trim s) = negb (allWhiteSpace s).
Proof.
  unfold trim. destruct (allWhiteSpace s) eqn:Hs.
  - by rewrite trimStart_allWhiteSpace.
  - destruct (trimStart_head s Hs) as (a & r & -> & Ha). by apply trimEnd_head.
Qed.

Lemma truthy_app_l s1 s2 : truthy s1 = true → truthy (s1 +:+ s2) = true.
Proof. by destruct s1. Qed.

Lemma base64Data_noComma image :
  noComma image = true → base64Data image = None.
Proof. intros Hi. unfold base64Data. by rewrite split_noComma. Qed.

Lemma base64Data_comma pre data :
  noComma pre = true → noComma data = true →
  base64Data (pre +:+ "," +:+ data) = Some data.
Proof.
  intros Hpre Hdata. unfold base64Data.
  change ("," +:+ data) with (String "," data).
  by rewrite split_comma, split_noComma.
Qed.

Lemma base64Data_comma_rest pre data rest :
  noComma pre = true → noComma data = true →
  base64Data (pre +:+ "," +:+ data +:+ "," +:+ rest) = Some data.
Proof.
  intros Hpre Hdata. unfold base64Data.
  change ("," +:+ data +:+ "," +:+ rest)
    with (String "," (data +:+ String "," rest)).
  by rewrite !split_comma.
Qed.

(** X13: what the handlers send as image data, [currentImage.split(',')[1]]:
    nothing ([undefined]) for an image string without a comma, and the
    text between the first comma and the next one (or the end)
    otherwise. *)
Theorem base64Data_spec :
  ∀ pre data : string,
    noComma pre = true →
    noComma data = true →
    base64Data pre = None
    ∧ base64Data (pre +:+ "," +:+ data) = Some data
    ∧ ∀ rest, base64Data (pre +:+ "," +:+ data +:+ "," +:+ rest) = Some data.
Proof.
  intros pre data Hpre Hdata. split; [|split].
  - by apply base64Data_noComma.
  - by apply base64Data_comma.
  - intros rest. by apply base64Data_comma_rest.
Qed.

Lemma base64Data_spec_witness :
  base64Data "iVBORw0KGgo=" = None
  ∧ base64Data ("data:image/png;base64" +:+ "," +:+ "iVBORw0KGgo=") =
    Some "iVBORw0KGgo=".
Proof.
  destruct (base64Data_spec "data:image/png;base64" "iVBORw0KGgo=" eq_refl eq_refl)
    as (_ & Hdata & _).
  destruct (base64Data_spec "iVBORw0KGgo=" "" eq_refl eq_refl) as (Hnone & _).
  split; [exact Hnone|exact Hdata].
Defined.

(** X14: after a successful upload the three operations send to their
    adapter the base64 text that [fileToGenerativePart] produced and the
    type of the file, provided neither contains a comma. *)
Theorem upload_then_operation_arguments :
  ∀ fileToGenerativePart (file : File.t) (base64 : string) (s : State),
    fileToGenerativePart file = Resolved base64 →
    noComma (File.type file) = true →
    noComma base64 = true →
    let s1 := handleFileChange fileToGenerativePart (Some file) s in
    (∀ generateMagicCaptions,
        handleMagicCaption generateMagicCaptions s1 =
        handleMagicCaption_settled
          (generateMagicCaptions (Some base64) (File.type file))
          (handleMagicCaption_begin s1))
    ∧ (∀ analyzeMemeContext,
          handleAnalyze analyzeMemeContext s1 =
          handleAnalyze_settled
            (analyzeMemeContext (Some base64) (File.type file))
            (handleAnalyze_begin s1))
    ∧ (∀ editMemeImage,
          truthy (trim (editPrompt s)) = true →
          handleEditImage editMemeImage s1 =
          handleEditImage_settled
            (editMemeImage (Some base64) (File.type file) (editPrompt s))
            (handleEditImage_begin s1)).
Proof.
  intros f2g file base64 s Hfile Htype Hdata s1.
  assert (base64Data ("data:" +:+ File.type file +:+ ";base64," +:+ base64)
          = Some base64) as Hsplit.
  { pose proof (base64Data_comma ("data:" +:+ File.type file +:+ ";base64") base64)
      as Hspec.
    rewrite !noComma_app, Htype in Hspec.
    rewrite <- (Hspec eq_refl Hdata). f_equal. by rewrite !string_app_assoc. }
  subst s1. rewrite (handleFileChange_resolved f2g file base64 s Hfile).
  repeat split.
  - intros gen. erewrite handleMagicCaption_entered; [|reflexivity|reflexivity].
    simpl. by rewrite Hsplit.
  - intros analyze. erewrite handleAnalyze_entered; [|reflexivity|reflexivity].
    simpl. by rewrite Hsplit.
  - intros edit Hp.
    erewrite handleEditImage_entered; [|reflexivity|reflexivity|exact Hp].
    simpl. by rewrite Hsplit.
Qed.

Lemma upload_then_operation_arguments_witness :
  handleMagicCaption Sample.generateMagicCaptions
    (handleFileChange Sample.fileToGenerativePart (Some Sample.upload)
       Sample.session) =
  handleMagicCaption_settled
    (Sample.generateMagicCaptions (Some "iVBORw0KGgo=") "image/png")
    (handleMagicCaption_begin
       (handleFileChange Sample.fileToGenerativePart (Some Sample.upload)
          Sample.session)).
Proof.
  apply (upload_then_operation_arguments Sample.fileToGenerativePart
           Sample.upload "iVBORw0KGgo=" Sample.session); reflexivity.
Defined.

(** * Further properties of the handlers *)

Lemma starts_entered s image :
  currentImage s = Some image → truthy image = true →
  handleMagicCaption_start s = handleMagicCaption_begin s
  ∧ handleAnalyze_start s = handleAnalyze_begin s
  ∧ (truthy (trim (editPrompt s)) = true →
     handleEditImage_start s = handleEditImage_begin s).
Proof.
  intros Hi Ht.
  unfold handleMagicCaption_start, handleAnalyze_start, handleEditImage_start.
  rewrite Hi, Ht. repeat split. by intros ->.
Qed.

(** X15: a prompt made of white space only (or empty) is turned down:
    whatever the adapter, [handleEditImage] returns the state unchanged,
    busy flag and error slot included; yet the edit button is enabled for
    such a prompt when it is not empty and no edit is running. *)
Theorem blank_prompt_rejected :
  ∀ s : State,
    allWhiteSpace (editPrompt s) = true →
    (∀ editMemeImage, handleEditImage editMemeImage s = s)
    ∧ handleEditImage_start s = s
    ∧ (truthy (editPrompt s) = true → loadingState s ≠ EDITING_IMAGE →
       editButtonDisabled s = false).
Proof.
  intros s Hblank.
  assert (truthy (trim (editPrompt s)) = false) as Hp
    by (by rewrite truthy_trim, Hblank).
  repeat split.
  - intros edit. by apply handleEditImage_blank_prompt.
  - unfold handleEditImage_start. rewrite Hp.
    destruct (currentImage s); [|done]. by rewrite orb_true_r.
  - intros Hne Hstate. unfold editButtonDisabled.
    rewrite Hne, bool_decide_eq_false_2 by done. reflexivity.
Qed.

Lemma blank_prompt_rejected_witness :
  handleEditImage Sample.editMemeImage (setEditPrompt Sample.session "   ") =
    setEditPrompt Sample.session "   "
  ∧ editButtonDisabled (setEditPrompt Sample.session "   ") = false.
Proof.
  destruct (blank_prompt_rejected (setEditPrompt Sample.session "   ") eq_refl)
    as (Hnoop & _ & Hbutton).
  split; [apply Hnoop|]. apply Hbutton; [reflexivity|discriminate].
Defined.

(** X16: without an image ([null] or the empty string) the three
    operations return the state unchanged, whatever the adapters and the
    prompt. *)
Theorem no_image_no_operation :
  ∀ s : State,
    truthy_opt (currentImage s) = false →
    (∀ generateMagicCaptions, handleMagicCaption generateMagicCaptions s = s)
    ∧ (∀ editMemeImage, handleEditImage editMemeImage s = s)
    ∧ (∀ analyzeMemeContext, handleAnalyze analyzeMemeContext s = s).
Proof.
  intros s Hnone.
  unfold handleMagicCaption, handleEditImage, handleAnalyze.
  destruct (currentImage s) as [image|] eqn:Hi; [|done].
  simpl in Hnone. by rewrite Hnone.
Qed.

Lemma no_image_no_operation_witness :
  handleMagicCaption Sample.generateMagicCaptions initialState = initialState
  ∧ handleEditImage Sample.editMemeImage (setEditPrompt initialState "hat") =
    setEditPrompt initialState "hat"
  ∧ handleAnalyze Sample.analyzeMemeContext (setCurrentImage initialState (Some "")) =
    setCurrentImage initialState (Some "").
Proof.
  split; [|split].
  - by apply (no_image_no_operation initialState).
  - by apply (no_image_no_operation (setEditPrompt initialState "hat")).
  - by apply (no_image_no_operation (setCurrentImage initialState (Some ""))).
Defined.

(** X17: with an image loaded, [handleMagicCaption] that succeeds replaces
    the whole suggestion list by the adapter's answer and leaves no error;
    one that fails keeps the suggestions and sets the captioning message.
    Either way the state is idle and everything else is as before. *)
Theorem handleMagicCaption_outcome :
  ∀ generateMagicCaptions (s : State) (image : string),
    currentImage s = Some image →
    truthy image = true →
    handleMagicCaption generateMagicCaptions s =
    match generateMagicCaptions (base64Data image) (currentMimeType s) with
    | Resolved result =>
        mkState (currentImage s) (currentMimeType s) (texts s) result IDLE
          (analysisText s) (showAnalysis s) (editPrompt s) None
    | Rejected _ =>
        mkState (currentImage s) (currentMimeType s) (texts s) (captions s) IDLE
          (analysisText s) (showAnalysis s) (editPrompt s)
          (Some "Failed to generate captions. Try again.")
    end.
Proof.
  intros gen s image Hi Ht.
  rewrite (handleMagicCaption_entered gen s image Hi Ht).
  by destruct (gen _ _).
Qed.

Lemma handleMagicCaption_outcome_witness :
  handleMagicCaption Sample.generateMagicCaptions Sample.session =
  mkState (Some "data:image/jpeg;base64,AAAA") "image/jpeg"
    [Sample.top; Sample.bottom] [GeneratedCaption.mk "me at 3am" Viral] IDLE
    "A cat looking at a salad." false "add sunglasses" None.
Proof.
  apply (handleMagicCaption_outcome Sample.generateMagicCaptions Sample.session
           "data:image/jpeg;base64,AAAA"); reflexivity.
Defined.

(** X18: with an image loaded, [handleAnalyze] that succeeds stores the
    analysis, raises the display flag and leaves no error; one that fails
    sets the analysis message and leaves the stored analysis and the flag
    as they were.  Either way the state is idle and everything else is as
    before. *)
Theorem handleAnalyze_outcome :
  ∀ analyzeMemeContext (s : State) (image : string),
    currentImage s = Some image →
    truthy image = true →
    handleAnalyze analyzeMemeContext s =
    match analyzeMemeContext (base64Data image) (currentMimeType s) with
    | Resolved analysis =>
        mkState (currentImage s) (currentMimeType s) (texts s) (captions s) IDLE
          analysis true (editPrompt s) None
    | Rejected _ =>
        mkState (currentImage s) (currentMimeType s) (texts s) (captions s) IDLE
          (analysisText s) (showAnalysis s) (editPrompt s)
          (Some "Analysis failed.")
    end.
Proof.
  intros analyze s image Hi Ht.
  rewrite (handleAnalyze_entered analyze s image Hi Ht).
  by destruct (analyze _ _).
Qed.

Lemma handleAnalyze_outcome_witness :
  handleAnalyze Sample.analyzeMemeContext Sample.session =
  mkState (Some "data:image/jpeg;base64,AAAA") "image/jpeg"
    [Sample.top; Sample.bottom] [GeneratedCaption.mk "so true" Funny] IDLE
    "Still a cat." true "add sunglasses" None.
Proof.
  apply (handleAnalyze_outcome Sample.analyzeMemeContext Sample.session
           "data:image/jpeg;base64,AAAA"); reflexivity.
Defined.

(** X19: a successful edit consumes the prompt: the prompt is empty
    afterwards, and a second [handleEditImage] right after it does
    nothing, whatever its adapter would answer. *)
Theorem successful_edit_consumes_prompt :
  ∀ editMemeImage (s : State) (image newImageBase64 : string),
    currentImage s = Some image →
    truthy image = true →
    truthy (trim (editPrompt s)) = true →
    editMemeImage (base64Data image) (currentMimeType s) (editPrompt s) =
      Resolved newImageBase64 →
    editPrompt (handleEditImage editMemeImage s) = ""
    ∧ ∀ editAgain,
        handleEditImage editAgain (handleEditImage editMemeImage s) =
        handleEditImage editMemeImage s.
Proof.
  intros edit s image new Hi Ht Hp Hedit.
  rewrite (handleEditImage_entered edit s image Hi Ht Hp), Hedit.
  split; [reflexivity|]. intros again. by apply handleEditImage_blank_prompt.
Qed.

Lemma successful_edit_consumes_prompt_witness :
  editPrompt (handleEditImage Sample.editMemeImage Sample.session) = ""
  ∧ handleEditImage Sample.editMemeImageBusy
      (handleEditImage Sample.editMemeImage Sample.session) =
    handleEditImage Sample.editMemeImage Sample.session.
Proof.
  destruct (successful_edit_consumes_prompt Sample.editMemeImage Sample.session
              "data:image/jpeg;base64,AAAA" "data:image/png;base64,CCCC"
              eq_refl eq_refl eq_refl eq_refl) as [Hprompt Hagain].
  split; [exact Hprompt|apply Hagain].
Defined.

(** X20: a failed operation leaves nothing behind that a retry would see:
    running an operation after a failed run of the same operation gives
    the state that running it at once would have given. *)
Theorem retry_after_failure :
  ∀ (s : State) (image : string),
    currentImage s = Some image →
    truthy image = true →
    (∀ failing retry err,
        failing (base64Data image) (currentMimeType s) = Rejected err →
        handleMagicCaption retry (handleMagicCaption failing s) =
        handleMagicCaption retry s)
    ∧ (∀ failing retry err,
          truthy (trim (editPrompt s)) = true →
          failing (base64Data image) (currentMimeType s) (editPrompt s) =
            Rejected err →
          handleEditImage retry (handleEditImage failing s) =
          handleEditImage retry s)
    ∧ (∀ failing retry err,
          failing (base64Data image) (currentMimeType s) = Rejected err →
          handleAnalyze retry (handleAnalyze failing s) =
          handleAnalyze retry s).
Proof.
  intros s image Hi Ht. repeat split.
  - intros failing retry err Hfail.
    rewrite (handleMagicCaption_entered failing s image Hi Ht), Hfail.
    rewrite (handleMagicCaption_entered retry s image Hi Ht).
    erewrite handleMagicCaption_entered; [reflexivity|exact Hi|exact Ht].
  - intros failing retry err Hp Hfail.
    rewrite (handleEditImage_entered failing s image Hi Ht Hp), Hfail.
    rewrite (handleEditImage_entered retry s image Hi Ht Hp).
    erewrite handleEditImage_entered; [reflexivity|exact Hi|exact Ht|exact Hp].
  - intros failing retry err Hfail.
    rewrite (handleAnalyze_entered failing s image Hi Ht), Hfail.
    rewrite (handleAnalyze_entered retry s image Hi Ht).
    erewrite handleAnalyze_entered; [reflexivity|exact Hi|exact Ht].
Qed.

Lemma retry_after_failure_witness :
  handleEditImage Sample.editMemeImage
    (handleEditImage Sample.editMemeImageBusy Sample.session) =
  handleEditImage Sample.editMemeImage Sample.session.
Proof.
  destruct (retry_after_failure Sample.session "data:image/jpeg;base64,AAAA"
              eq_refl eq_refl) as (_ & Hedit & _).
  apply (Hedit Sample.editMemeImageBusy Sample.editMemeImage "503");
    reflexivity.
Defined.

(** X21: loading an image, from a file or from a template, with any
    outcome, never changes the operation state, the stored analysis, its
    display flag or the prompt. *)
Theorem loads_leave_pipeline_cells :
  ∀ fileToGenerativePart fetch (files0 : option File.t) (url : string)
    (s s' : State),
    s' = handleFileChange fileToGenerativePart files0 s
    ∨ s' = handleSelectTemplate fetch url s →
    loadingState s' = loadingState s
    ∧ analysisText s' = analysisText s
    ∧ showAnalysis s' = showAnalysis s
    ∧ editPrompt s' = editPrompt s.
Proof.
  intros f2g fetch files0 url s s' [->| ->].
  - unfold handleFileChange. destruct files0 as [file|]; [|done].
    by destruct (f2g file).
  - unfold handleSelectTemplate, handleSelectTemplate_body.
    destruct (fetch url) as [response|]; [|done].
    by destruct (Response.blob response).
Qed.

Lemma loads_leave_pipeline_cells_witness :
  let s' := handleSelectTemplate Sample.fetch404 "/t" Sample.session in
  loadingState s' = IDLE
  ∧ analysisText s' = "A cat looking at a salad."
  ∧ showAnalysis s' = false
  ∧ editPrompt s' = "add sunglasses".
Proof.
  apply (loads_leave_pipeline_cells Sample.fileToGenerativePart Sample.fetch404
           None "/t" Sample.session).
  right. reflexivity.
Defined.

(** X22: no run of an AI operation, entered or not, succeeding or not,
    changes the overlays; captioning and analysis change neither the
    image, the mime type nor the prompt; editing and analysis never change
    the suggestions. *)
Theorem operations_frame :
  ∀ generateMagicCaptions editMemeImage analyzeMemeContext (s : State),
    let s1 := handleMagicCaption generateMagicCaptions s in
    let s2 := handleEditImage editMemeImage s in
    let s3 := handleAnalyze analyzeMemeContext s in
    (texts s1 = texts s ∧ texts s2 = texts s ∧ texts s3 = texts s)
    ∧ (currentImage s1 = currentImage s ∧ currentImage s3 = currentImage s)
    ∧ (currentMimeType s1 = currentMimeType s
       ∧ currentMimeType s3 = currentMimeType s)
    ∧ (editPrompt s1 = editPrompt s ∧ editPrompt s3 = editPrompt s)
    ∧ (captions s2 = captions s ∧ captions s3 = captions s).
Proof.
  intros gen edit analyze s.
  unfold handleMagicCaption, handleEditImage, handleAnalyze.
  destruct (currentImage s) as [image|] eqn:Hi; [|by rewrite ?Hi].
  destruct (truthy image); simpl; [|by rewrite ?Hi].
  destruct (truthy (trim (editPrompt s))); simpl;
    destruct (gen _ _), (analyze _ _); try destruct (edit _ _ _);
    simpl; by rewrite ?Hi.
Qed.

(** X23: [handleFileChange] without a file returns the state unchanged; a
    file that cannot be read sets the load message and leaves the image,
    its mime type, the overlays and the suggestions as they were. *)
Theorem handleFileChange_failure :
  ∀ fileToGenerativePart (s : State),
    handleFileChange fileToGenerativePart None s = s
    ∧ ∀ file err,
        fileToGenerativePart file = Rejected err →
        handleFileChange fileToGenerativePart (Some file) s =
        mkState (currentImage s) (currentMimeType s) (texts s) (captions s)
          (loadingState s) (analysisText s) (showAnalysis s) (editPrompt s)
          (Some "Failed to load image").
Proof.
  intros f2g s. split; [reflexivity|]. intros file err Hfile.
  unfold handleFileChange. by rewrite Hfile.
Qed.

Lemma handleFileChange_failure_witness :
  handleFileChange (λ _, Rejected "NotReadableError") (Some Sample.upload)
    Sample.session =
  mkState (Some "data:image/jpeg;base64,AAAA") "image/jpeg"
    [Sample.top; Sample.bottom] [GeneratedCaption.mk "so true" Funny] IDLE
    "A cat looking at a salad." false "add sunglasses"
    (Some "Failed to load image").
Proof.
  destruct (handleFileChange_failure (λ _, Rejected "NotReadableError")
              Sample.session) as [_ Hfail].
  apply (Hfail Sample.upload "NotReadableError"). reflexivity.
Defined.

(** X24: a template whose bytes arrive but cannot be read as a data URL
    ([reader.result] is [null]) leaves the session without an image, with
    the overlays and suggestions gone and no error reported; the AI tools
    are hidden and the three operations do nothing. *)
Theorem template_unreadable :
  ∀ fetch (url : string) (response : Response.t) (blob : Blob.t) (s : State),
    fetch url = Resolved response →
    Response.blob response = Resolved blob →
    Blob.dataURL blob = None →
    let s' := handleSelectTemplate fetch url s in
    s' = mkState None (Blob.type blob) [] [] (loadingState s) (analysisText s)
           (showAnalysis s) (editPrompt s) None
    ∧ showAITools s' = false
    ∧ showError s' = false
    ∧ (∀ generateMagicCaptions, handleMagicCaption generateMagicCaptions s' = s')
    ∧ (∀ editMemeImage, handleEditImage editMemeImage s' = s')
    ∧ (∀ analyzeMemeContext, handleAnalyze analyzeMemeContext s' = s').
Proof.
  intros fetch url response blob s Hfetch Hblob Hnull s'. subst s'.
  rewrite (handleSelectTemplate_resolved fetch url response blob s Hfetch Hblob).
  rewrite Hnull. repeat split.
Qed.

Lemma template_unreadable_witness :
  let fetch := λ _ : string,
    Resolved (Response.mk true 200 (Resolved (Blob.mk "image/webp" None))) in
  handleSelectTemplate fetch "/templates/drake.webp" Sample.session =
  mkState None "image/webp" [] [] IDLE "A cat looking at a salad." false
    "add sunglasses" None.
Proof.
  apply (template_unreadable
           (λ _, Resolved (Response.mk true 200 (Resolved (Blob.mk "image/webp" None))))
           "/templates/drake.webp"
           (Response.mk true 200 (Resolved (Blob.mk "image/webp" None)))
           (Blob.mk "image/webp" None) Sample.session); reflexivity.
Defined.

(** * The view *)

(** X25: the "Processing image..." layer is shown exactly while the
    operation state is [EDITING_IMAGE]: it comes up when an edit enters
    its body, never for captioning or analysis, and is gone when any
    operation completes. *)
Theorem loading_overlay_iff_editing :
  ∀ s : State,
    (showLoadingOverlay s = true ↔ loadingState s = EDITING_IMAGE)
    ∧ showLoadingOverlay (handleEditImage_begin s) = true
    ∧ showLoadingOverlay (handleMagicCaption_begin s) = false
    ∧ showLoadingOverlay (handleAnalyze_begin s) = false
    ∧ (∀ r, showLoadingOverlay (handleMagicCaption_settled r s) = false)
    ∧ (∀ r, showLoadingOverlay (handleEditImage_settled r s) = false)
    ∧ (∀ r, showLoadingOverlay (handleAnalyze_settled r s) = false).
Proof.
  intros s. split.
  - unfold showLoadingOverlay. by destruct (loadingState s).
  - repeat split; intros r; by destruct r.
Qed.

(** X26: whenever [handleEditImage] would enter its body the edit button
    is enabled, unless an edit is already running; from the moment the
    body is entered until the edit completes it is disabled. *)
Theorem edit_button_and_guard :
  ∀ s : State,
    truthy (trim (editPrompt s)) = true →
    (loadingState s ≠ EDITING_IMAGE → editButtonDisabled s = false)
    ∧ editButtonDisabled (handleEditImage_begin s) = true.
Proof.
  intros s Hp.
  assert (truthy (editPrompt s) = true) as Hne.
  { destruct (editPrompt s); [discriminate Hp|done]. }
  split; [|reflexivity].
  intros Hstate. unfold editButtonDisabled.
  rewrite Hne, bool_decide_eq_false_2 by done. reflexivity.
Qed.

Lemma edit_button_and_guard_witness :
  editButtonDisabled Sample.session = false
  ∧ editButtonDisabled (handleEditImage_begin Sample.session) = true.
Proof.
  destruct (edit_button_and_guard Sample.session eq_refl) as [Hidle Hbusy].
  split; [apply Hidle; discriminate|exact Hbusy].
Defined.

(** * Runs of the application *)

Lemma run_snoc events e s : run (events ++ [e]) s = handle e (run events s).
Proof. unfold run. by rewrite foldl_app. Qed.

(** An invariant of [handle] that holds initially holds in every
    reachable state. *)
Lemma reachable_ind (P : State → Prop) :
  P initialState →
  (∀ e s, P s → P (handle e s)) →
  ∀ s, reachable s → P s.
Proof.
  intros Hinit Hstep s [events ->].
  induction events as [|e events IH] using rev_ind; [exact Hinit|].
  rewrite run_snoc. by apply Hstep.
Qed.

Lemma asCreated_inRange t : asCreated t → inRange t.
Proof. intros (Hx & [Hy|Hy] & _); unfold inRange; lia. Qed.

Lemma addTextOverlay_asCreated now text texts :
  Forall asCreated texts → Forall asCreated (addTextOverlay now text texts).
Proof.
  intros Hall. unfold addTextOverlay. cbv zeta.
  apply Forall_app. split; [done|]. apply Forall_singleton.
  unfold asCreated. simpl. repeat split. case_decide; auto.
Qed.

Lemma removeText_asCreated id texts :
  Forall asCreated texts → Forall asCreated (removeText id texts).
Proof.
  unfold removeText. rewrite !Forall_forall.
  intros Hall t [_ Ht]%list_elem_of_filter. by apply Hall.
Qed.

Lemma handle_asCreated e s :
  Forall asCreated (texts s) → Forall asCreated (texts (handle e s)).
Proof.
  intros Hall. destruct e as [files0 r|url r|blob| |r|value| |r| |r|idx|idx|idx now
                             |key value now|]; simpl; try done.
  - destruct files0 as [file|]; [|done]. destruct r; [apply Forall_nil_2|done].
  - unfold handleSelectTemplate_body. destruct r as [response|]; [|done].
    destruct (Response.blob response); [apply Forall_nil_2|done].
  - unfold handleMagicCaption_start. destruct (currentImage s) as [image|]; [|done].
    by destruct (truthy image).
  - by destruct r.
  - unfold handleEditImage_start. destruct (currentImage s) as [image|]; [|done].
    by destruct (negb (truthy image) || negb (truthy (trim (editPrompt s)))).
  - by destruct r.
  - unfold handleAnalyze_start. destruct (currentImage s) as [image|]; [|done].
    by destruct (truthy image).
  - by destruct r.
  - destruct (texts s !! idx) as [t|]; [|done]. simpl.
    by apply removeText_asCreated.
  - destruct (captions s !! idx) as [cap|]; [|done]. simpl.
    by apply addTextOverlay_asCreated.
  - unfold onKeyDown. case_decide; [|done]. simpl.
    by apply addTextOverlay_asCreated.
Qed.

(** X27: in every state the application can reach, every overlay is as
    [addTextOverlay] made it: at x = 50 and y = 10 or 90, with font size
    32, white and upper-cased; so every coordinate is within [0,100].
    Nothing bound in the view calls [updateTextPosition]. *)
Theorem reachable_overlays_as_created :
  ∀ s : State,
    reachable s →
    Forall asCreated (texts s) ∧ Forall inRange (texts s).
Proof.
  intros s Hreach.
  assert (Forall asCreated (texts s)) as Hall.
  { revert s Hreach. apply reachable_ind; [apply Forall_nil_2|].
    intros e s. apply handle_asCreated. }
  split; [exact Hall|]. eapply Forall_impl; [exact Hall|].
  apply asCreated_inRange.
Qed.

Lemma reachable_overlays_as_created_witness :
  let events :=
    [ FileChange (Some Sample.upload) (Resolved "iVBORw0KGgo=");
      KeyDown "Enter" "LOL" 1700000000000;
      ClickMagicCaption;
      SettleMagicCaption (Resolved [GeneratedCaption.mk "me at 3am" Viral]);
      ClickSuggestion 0 1700000000917;
      ClickRemove 0 ] in
  texts (run events initialState) =
    [TextOverlay.mk "1700000000917" "me at 3am" 50 90 32 "#FFFFFF" true]
  ∧ Forall inRange (texts (run events initialState)).
Proof.
  intros events. split; [vm_compute; reflexivity|].
  apply (reachable_overlays_as_created (run events initialState)).
  exists events. reflexivity.
Defined.

Lemma handle_errorMsg e s :
  (∀ m, errorMsg s = Some m → m ∈ errorMessages) →
  ∀ m, errorMsg (handle e s) = Some m → m ∈ errorMessages.
Proof.
  intros Hold m.
  assert (∀ m0 : string, m0 ∈ errorMessages → Some m0 = Some m → m ∈ errorMessages)
    as Hnew by (by intros m0 ? [= <-]).
  unfold errorMessages in *.
  destruct e as [files0 r|url r|blob| |r|value| |r| |r|idx|idx|idx now
                |key value now|]; simpl; try (by apply Hold).
  - destruct files0 as [file|]; [|by apply Hold].
    destruct r; simpl; [discriminate|]. apply Hnew. repeat constructor.
  - unfold handleSelectTemplate_body. destruct r as [response|]; simpl.
    + destruct (Response.blob response); simpl; [discriminate|].
      apply Hnew. repeat constructor.
    + apply Hnew. repeat constructor.
  - unfold handleMagicCaption_start. destruct (currentImage s) as [image|];
      [|by apply Hold]. destruct (truthy image); simpl; [discriminate|by apply Hold].
  - destruct r; simpl; [by apply Hold|]. apply Hnew. repeat constructor.
  - unfold handleEditImage_start. destruct (currentImage s) as [image|];
      [|by apply Hold].
    destruct (negb (truthy image) || negb (truthy (trim (editPrompt s)))); simpl;
      [by apply Hold|discriminate].
  - destruct r; simpl; [by apply Hold|]. apply Hnew. repeat constructor.
  - unfold handleAnalyze_start. destruct (currentImage s) as [image|];
      [|by apply Hold]. destruct (truthy image); simpl; [discriminate|by apply Hold].
  - destruct r; simpl; [by apply Hold|]. apply Hnew. repeat constructor.
  - destruct (texts s !! idx); simpl; by apply Hold.
  - destruct (captions s !! idx); simpl; by apply Hold.
  - unfold onKeyDown. case_decide; simpl; by apply Hold.
Qed.

(** X28: in every state the application can reach, the error slot is
    empty or holds one of the five messages of the handlers; none of them
    is the empty string, so the error banner is shown exactly when the
    slot is not empty. *)
Theorem reachable_error_messages :
  ∀ s : State,
    reachable s →
    (∀ m, errorMsg s = Some m → m ∈ errorMessages)
    ∧ (showError s = true ↔ errorMsg s ≠ None).
Proof.
  intros s Hreach.
  assert (∀ m, errorMsg s = Some m → m ∈ errorMessages) as Hmsg.
  { revert s Hreach.
    apply (reachable_ind (λ s, ∀ m, errorMsg s = Some m → m ∈ errorMessages));
      [discriminate|].
    intros e s. apply handle_errorMsg. }
  split; [exact Hmsg|]. unfold showError.
  destruct (errorMsg s) as [m|]; simpl; [|split; [discriminate|done]].
  specialize (Hmsg m eq_refl). unfold errorMessages in Hmsg.
  split; [done|]. intros _.
  repeat (apply elem_of_cons in Hmsg as [->|Hmsg]; [reflexivity|]).
  by apply elem_of_nil in Hmsg.
Qed.

Lemma reachable_error_messages_witness :
  let events := [ SelectTemplate "/templates/drake.jpg" (Rejected "offline") ] in
  errorMsg (run events initialState) = Some "Failed to load template"
  ∧ (showError (run events initialState) = true ↔
     errorMsg (run events initialState) ≠ None).
Proof.
  intros events. split; [reflexivity|].
  apply (reachable_error_messages (run events initialState)).
  exists events. reflexivity.
Defined.

(** X29: in the caption input, Enter adds one overlay with the typed text
    at the end of the store and empties the input, also when the text is
    empty; every other key leaves the state and the input as they are. *)
Theorem onKeyDown_enter :
  ∀ (key value : string) (now : Z) (s : State),
    (onKeyDown "Enter" value now s).2 = ""
    ∧ (∃ o, texts (onKeyDown "Enter" value now s).1 = texts s ++ [o]
            ∧ TextOverlay.text o = value
            ∧ TextOverlay.id o = toString now)
    ∧ (key ≠ "Enter" → onKeyDown key value now s = (s, value)).
Proof.
  intros key value now s. split; [reflexivity|]. split.
  - eexists. split; [reflexivity|]. split; reflexivity.
  - intros Hkey. unfold onKeyDown. by rewrite decide_False.
Qed.

Lemma onKeyDown_enter_witness :
  onKeyDown "a" "LO" 5 Sample.session = (Sample.session, "LO")
  ∧ List.length (texts (onKeyDown "Enter" "" 5 Sample.session).1) = 3%nat.
Proof.
  destruct (onKeyDown_enter "a" "LO" 5 Sample.session) as (_ & _ & Hother).
  split; [apply Hother; discriminate|reflexivity].
Defined.

(** X30: the busy flag is not a lock.  With an edit running, a click on
    the caption button enters its body and overwrites the flag, which
    hides the "Processing image..." layer and enables the edit button
    again; when the captions arrive the state is idle although the edit
    has not completed. *)
Theorem overlapping_operations :
  ∀ (s : State) (image : string),
    currentImage s = Some image →
    truthy image = true →
    truthy (trim (editPrompt s)) = true →
    let during := run [ClickEdit; ClickMagicCaption] s in
    loadingState (run [ClickEdit] s) = EDITING_IMAGE
    ∧ loadingState during = GENERATING_CAPTIONS
    ∧ showLoadingOverlay during = false
    ∧ editButtonDisabled during = false
    ∧ ∀ r, loadingState (run [ClickEdit; ClickMagicCaption; SettleMagicCaption r] s)
           = IDLE.
Proof.
  intros s image Hi Ht Hp during. subst during. unfold run. simpl.
  destruct (starts_entered s image Hi Ht) as (_ & _ & Hedit).
  rewrite (Hedit Hp).
  destruct (starts_entered (handleEditImage_begin s) image Hi Ht) as (Hcap & _).
  rewrite Hcap. repeat split.
  - unfold editButtonDisabled. simpl.
    destruct (editPrompt s); [discriminate Hp|done].
  - intros r. apply handleMagicCaption_settled_idle.
Qed.

Lemma overlapping_operations_witness :
  loadingState (run [ClickEdit; ClickMagicCaption] Sample.session) =
    GENERATING_CAPTIONS
  ∧ editButtonDisabled (run [ClickEdit; ClickMagicCaption] Sample.session) = false.
Proof.
  destruct (overlapping_operations Sample.session "data:image/jpeg;base64,AAAA"
              eq_refl eq_refl eq_refl) as (_ & Hflag & _ & Hbutton & _).
  split; [exact Hflag|exact Hbutton].
Defined.
